(** * Task Manager API: owner scoping, query engine, statistics and tokens

    A shallow embedding of the request handlers of the task manager
    backend (routes/tasks.ts, routes/categories.ts, routes/auth.ts,
    utils/jwt.ts, utils/validation.ts and server.ts) over an explicit model
    of the Prisma tables, followed by the properties of the specification
    that were checked against them. *)

From stdpp Require Import gmap strings list fin_maps pretty sorting.
From Stdlib Require Import ZArith Lia Ascii.

Local Open Scope string_scope.

#[local] Set Warnings "-clear-no-such-hyp".

(** ** JavaScript values *)

Module JS.

(** A JavaScript number as the handlers use it: an integer, or one of the
    non-finite values that [parseInt] and a division can produce (the sign
    of an infinity and of zero is not recorded; JSON prints every
    non-finite number as null). *)
Inductive number := Num (z : Z) | NaN | Infinity.

(** A number is a double: an integer of magnitude 2^53 or more is rounded to
    the nearest integer that a double holds (53 significant bits), to the
    even one of two that are equally near, and to an infinity beyond the
    largest double. *)
Definition to_double (z : Z) : number :=
  let a := Z.abs z in
  if (a <? 2 ^ 53)%Z then Num z
  else
    let e := (Z.log2 a - 52)%Z in
    let q := Z.shiftr a e in
    let r := (a - Z.shiftl q e)%Z in
    let half := Z.shiftl 1 (e - 1) in
    let q' := if (r <? half)%Z then q
              else if (half <? r)%Z then (q + 1)%Z
              else if Z.even q then q else (q + 1)%Z in
    let v := Z.shiftl q' e in
    if (2 ^ 1024 <=? v)%Z then Infinity else Num (Z.sgn z * v)%Z.

#[global] Arguments to_double : simpl never.

(** [if (v)] on a value that is a string or undefined. *)
Definition truthy (v : option string) : bool :=
  match v with
  | Some s => negb (String.eqb s "")
  | None => false
  end.

(** [v || d] *)
Definition or_else (v : option string) (d : string) : string :=
  match v with
  | Some s => if String.eqb s "" then d else s
  | None => d
  end.

Definition is_space (c : ascii) : bool :=
  let n := N_of_ascii c in
  (N.eqb n 32 || (N.leb 9 n && N.leb n 13))%bool.

Fixpoint skip_space (s : string) : string :=
  match s with
  | String c s' => if is_space c then skip_space s' else s
  | EmptyString => s
  end.

Definition digit_val (c : ascii) : option Z :=
  let n := Z.of_N (N_of_ascii c) in
  if ((48 <=? n) && (n <=? 57))%Z then Some (n - 48)%Z
  else if ((97 <=? n) && (n <=? 122))%Z then Some (n - 87)%Z
  else if ((65 <=? n) && (n <=? 90))%Z then Some (n - 55)%Z
  else None.

(** The longest prefix of digits of the radix, read as a number. *)
Fixpoint digits (radix : Z) (s : string) (acc : option Z) : option Z :=
  match s with
  | EmptyString => acc
  | String c s' =>
      match digit_val c with
      | Some d =>
          if (d <? radix)%Z
          then digits radix s' (Some (from_option (λ a, a * radix)%Z 0%Z acc + d)%Z)
          else acc
      | None => acc
      end
  end.

(** [parseInt(s)] without a radix: leading white space, a sign, a [0x]
    prefix, then the digits, read as a double; [NaN] when there is none.
    (Past twenty decimal digits an engine may round the last place
    otherwise; such a number is no 64-bit integer.) *)
Definition parseInt (s : string) : number :=
  let s1 := skip_space s in
  let '(neg, s2) :=
    match s1 with
    | String "-" r => (true, r)
    | String "+" r => (false, r)
    | _ => (false, s1)
    end in
  let '(radix, s3) :=
    match s2 with
    | String "0" (String "x" r) => (16%Z, r)
    | String "0" (String "X" r) => (16%Z, r)
    | _ => (10%Z, s2)
    end in
  match digits radix s3 None with
  | Some n => to_double (if neg : bool then - n else n)%Z
  | None => NaN
  end.

Definition sub (a b : number) : number :=
  match a, b with
  | Num x, Num y => to_double (x - y)
  | NaN, _ | _, NaN => NaN
  | Infinity, Infinity => NaN
  | _, _ => Infinity
  end.

Definition mul (a b : number) : number :=
  match a, b with
  | Num x, Num y => to_double (x * y)
  | NaN, _ | _, NaN => NaN
  | Infinity, Num y => if (y =? 0)%Z then NaN else Infinity
  | Num x, Infinity => if (x =? 0)%Z then NaN else Infinity
  | Infinity, Infinity => Infinity
  end.

(** [Math.ceil(a / b)] for a count [a] of rows: the ceiling of the exact
    quotient, which is the ceiling of the quotient of doubles as long as
    the count is below 2^53. *)
Definition ceil_div (a : Z) (b : number) : number :=
  match b with
  | Num y =>
      if (y =? 0)%Z then (if (a =? 0)%Z then NaN else Infinity)
      else Num (- ((- a) / y))%Z
  | NaN => NaN
  | Infinity => Num 0
  end.

Definition lower_ascii (c : ascii) : ascii :=
  let n := N_of_ascii c in
  if (N.leb 65 n && N.leb n 90)%bool then ascii_of_N (n + 32) else c.

Fixpoint toLowerCase (s : string) : string :=
  match s with
  | String c s' => String (lower_ascii c) (toLowerCase s')
  | EmptyString => EmptyString
  end.

End JS.

(** ** The Prisma schema (prisma/schema.prisma) *)

Inductive TaskStatus := PENDING | IN_PROGRESS | COMPLETED | CANCELLED.

(** A row of the [tasks] table. The primary key [id] is the key under which
    the row is stored in the table, so that it is unique by construction. *)
Record Task := mkTask {
  task_title : string;
  task_description : option string;
  task_dueDate : option Z;
  task_status : TaskStatus;
  task_userId : string;
  task_categoryId : option string;
  task_createdAt : Z;
  task_updatedAt : Z
}.

(** A row of the [categories] table, stored under its [id]. *)
Record Category := mkCategory {
  category_name : string;
  category_color : string;
  category_userId : string;
  category_createdAt : Z;
  category_updatedAt : Z
}.

Record Db := mkDb {
  tasks : gmap string Task;
  categories : gmap string Category
}.

(** ** The Prisma client *)

Module Prisma.

Inductive StatusFilter :=
| Equals (s : string)              (* status: s *)
| NotIn (l : list string).         (* status: { notIn: l } *)

Inductive IdFilter :=
| Is (i : string)                  (* id: i *)
| Not (i : string).                (* id: { not: i } *)

(** The [where] objects that the handlers build over tasks. *)
Record TaskWhere := mkTaskWhere {
  tw_id : option string;
  tw_userId : option string;
  tw_status : option StatusFilter;
  tw_categoryId : option string;
  tw_dueDate_lt : option Z;         (* dueDate: { lt: d } *)
  tw_OR_contains : option string    (* OR: title or description contains, insensitive *)
}.

(** The [where] objects that the handlers build over categories. *)
Record CategoryWhere := mkCategoryWhere {
  cw_id : option IdFilter;
  cw_userId : option string;
  cw_name : option string
}.

(** A JavaScript [Date]: an instant in milliseconds, or an Invalid Date. *)
Inductive Date := DateAt (ms : Z) | InvalidDate.

(** [data] of [task.create] *)
Record TaskCreate := mkTaskCreate {
  tc_title : option string;
  tc_description : option string;
  tc_dueDate : option Date;         (* null, or a Date *)
  tc_status : string;
  tc_userId : string;
  tc_categoryId : option string
}.

(** [data] of [task.update]; an absent key leaves the column as it is. *)
Record TaskUpdate := mkTaskUpdate {
  tu_title : option string;
  tu_description : option string;
  tu_dueDate : option (option Date);
  tu_status : option string;
  tu_categoryId : option string
}.

(** [data] of [category.create] *)
Record CategoryCreate := mkCategoryCreate {
  cc_name : option string;
  cc_color : string;
  cc_userId : string
}.

(** [data] of [category.update] *)
Record CategoryUpdate := mkCategoryUpdate {
  cu_name : option string;
  cu_color : option string
}.

(** Every call that a handler makes on the client, in the order made. *)
Inductive Call :=
| TaskFindMany (w : TaskWhere) (orderBy : option (string * string))
    (skip take : JS.number)
| TaskFindFirst (w : TaskWhere)
| TaskCount (w : TaskWhere)
| TaskCreateCall (data : TaskCreate)
| TaskUpdateCall (id : string) (data : TaskUpdate)
| TaskDeleteCall (id : string)
| CategoryFindMany (w : CategoryWhere) (orderBy : string * string)
| CategoryFindFirst (w : CategoryWhere)
| CategoryCreateCall (data : CategoryCreate)
| CategoryUpdateCall (id : string) (data : CategoryUpdate)
| CategoryDeleteCall (id : string).

(** What the client throws. *)
Inductive Error :=
| ValidationError                  (* PrismaClientValidationError *)
| UniqueViolation                  (* P2002 *)
| ForeignKeyViolation              (* P2003 *)
| RecordNotFound.                  (* P2025 *)

Record World := mkWorld { db : Db; log : list Call }.

Inductive outcome (A : Type) := Ret (a : A) | Throw (e : Error).
Arguments Ret {A} a.
Arguments Throw {A} e.

(** An asynchronous computation over the client: it reads and writes the
    store, records its calls, and returns or throws. *)
Definition prisma (A : Type) : Type := World → outcome A * World.

Definition ret {A} (a : A) : prisma A := λ w, (Ret a, w).

Definition bind {A B} (m : prisma A) (k : A → prisma B) : prisma B :=
  λ w, match m w with
       | (Ret a, w') => k a w'
       | (Throw e, w') => (Throw e, w')
       end.

Definition query {A} (c : Call) (run : Db → outcome A * Db) : prisma A :=
  λ w, let '(r, d) := run (db w) in (r, mkWorld d (log w ++ [c])).

Definition status_name (s : TaskStatus) : string :=
  match s with
  | PENDING => "PENDING"
  | IN_PROGRESS => "IN_PROGRESS"
  | COMPLETED => "COMPLETED"
  | CANCELLED => "CANCELLED"
  end.

Definition parse_status (s : string) : option TaskStatus :=
  if String.eqb s "PENDING" then Some PENDING
  else if String.eqb s "IN_PROGRESS" then Some IN_PROGRESS
  else if String.eqb s "COMPLETED" then Some COMPLETED
  else if String.eqb s "CANCELLED" then Some CANCELLED
  else None.

Definition is_enum (s : string) : bool := bool_decide (is_Some (parse_status s)).

(** A [where] is rejected by the client when it names a status outside the
    enumeration. *)
Definition task_where_ok (w : TaskWhere) : bool :=
  match tw_status w with
  | Some (Equals s) => is_enum s
  | Some (NotIn l) => forallb is_enum l
  | None => true
  end.

Definition opt_test {A} (f : A → bool) (o : option A) : bool :=
  match o with
  | Some a => f a
  | None => true
  end.

Definition status_matches (f : StatusFilter) (s : TaskStatus) : bool :=
  match f with
  | Equals n => String.eqb (status_name s) n
  | NotIn l => negb (existsb (String.eqb (status_name s)) l)
  end.

(** *** Text search *)

(** The bytes of a character after its first one, in UTF-8. *)
Definition is_continuation (c : ascii) : bool :=
  (N.leb 128 (N_of_ascii c) && N.leb (N_of_ascii c) 191)%bool.

Fixpoint skip_continuation (s : string) : string :=
  match s with
  | String c s' => if is_continuation c then skip_continuation s' else s
  | EmptyString => s
  end.

(** [text LIKE pattern] of the database: in the pattern [%] stands for any
    text, [_] for any one character, and a backslash takes the character
    after it literally. A pattern that ends in a lone backslash is refused
    by the database; none is built here, since every pattern ends in [%]. *)
Fixpoint like (p : string) : string → bool :=
  match p with
  | EmptyString => λ t, match t with
                        | EmptyString => true
                        | String _ _ => false
                        end
  | String c p' =>
      if Ascii.eqb c "%" then
        fix any (t : string) : bool :=
          (like p' t || match t with
                        | String _ t' => any t'
                        | EmptyString => false
                        end)%bool
      else if Ascii.eqb c "_" then
        λ t, match t with
             | String _ t' => like p' (skip_continuation t')
             | EmptyString => false
             end
      else if Ascii.eqb c "\" then
        match p' with
        | String e p'' =>
            λ t, match t with
                 | String x t' => (Ascii.eqb e x && like p'' t')%bool
                 | EmptyString => false
                 end
        | EmptyString => λ _, false
        end
      else
        λ t, match t with
             | String x t' => (Ascii.eqb c x && like p' t')%bool
             | EmptyString => false
             end
  end.

(** [{ contains: needle, mode: 'insensitive' }]: the client puts the text
    between two [%] without escaping it and the database matches it with
    ILIKE, so that [%], [_] and the backslash of the text keep their meaning
    in the pattern. Letters are folded as ASCII letters; the folding of
    other letters depends on the locale of the database. *)
Definition contains_insensitive (needle hay : string) : bool :=
  like (JS.toLowerCase ("%" +:+ needle +:+ "%")) (JS.toLowerCase hay).

Definition task_matches (w : TaskWhere) (r : string * Task) : bool :=
  let '(i, t) := r in
  (opt_test (String.eqb i) (tw_id w)
   && opt_test (String.eqb (task_userId t)) (tw_userId w)
   && opt_test (λ f, status_matches f (task_status t)) (tw_status w)
   && opt_test (λ c, bool_decide (task_categoryId t = Some c)) (tw_categoryId w)
   && opt_test (λ d, match task_dueDate t with
                     | Some x => (x <? d)%Z
                     | None => false
                     end) (tw_dueDate_lt w)
   && opt_test (λ s, contains_insensitive s (task_title t)
                     || match task_description t with
                        | Some x => contains_insensitive s x
                        | None => false
                        end) (tw_OR_contains w))%bool.

Definition id_matches (f : IdFilter) (i : string) : bool :=
  match f with
  | Is j => String.eqb i j
  | Not j => negb (String.eqb i j)
  end.

Definition category_matches (w : CategoryWhere) (r : string * Category) : bool :=
  let '(i, c) := r in
  (opt_test (λ f, id_matches f i) (cw_id w)
   && opt_test (String.eqb (category_userId c)) (cw_userId w)
   && opt_test (String.eqb (category_name c)) (cw_name w))%bool.

Definition task_rows (w : TaskWhere) (d : Db) : list (string * Task) :=
  List.filter (task_matches w) (map_to_list (tasks d)).

Definition category_rows (w : CategoryWhere) (d : Db) : list (string * Category) :=
  List.filter (category_matches w) (map_to_list (categories d)).

(** *** Ordering *)

(** The value of a column in a row, as the database compares it. *)
Inductive key := KNull | KInt (z : Z) | KStr (s : string).

Definition status_rank (s : TaskStatus) : Z :=
  match s with
  | PENDING => 0
  | IN_PROGRESS => 1
  | COMPLETED => 2
  | CANCELLED => 3
  end.

Definition opt_key {A} (f : A → key) (o : option A) : key :=
  match o with
  | Some a => f a
  | None => KNull
  end.

(** The scalar columns of [Task]; any other name is not a sort field. *)
Definition task_column (f : string) : option (string * Task → key) :=
  if String.eqb f "id" then Some (λ r, KStr r.1)
  else if String.eqb f "title" then Some (λ r, KStr (task_title r.2))
  else if String.eqb f "description" then Some (λ r, opt_key KStr (task_description r.2))
  else if String.eqb f "dueDate" then Some (λ r, opt_key KInt (task_dueDate r.2))
  else if String.eqb f "status" then Some (λ r, KInt (status_rank (task_status r.2)))
  else if String.eqb f "userId" then Some (λ r, KStr (task_userId r.2))
  else if String.eqb f "categoryId" then Some (λ r, opt_key KStr (task_categoryId r.2))
  else if String.eqb f "createdAt" then Some (λ r, KInt (task_createdAt r.2))
  else if String.eqb f "updatedAt" then Some (λ r, KInt (task_updatedAt r.2))
  else None.

(** Nulls compare greater than every value (last ascending, first
    descending). Two texts are compared character by character, by code,
    which is the order of the database under the C collation; under another
    collation the order of two texts may differ, and no property stated
    below for every store depends on the relative order of two texts. *)
Definition key_le (a b : key) : bool :=
  match a, b with
  | _, KNull => true
  | KNull, _ => false
  | KInt x, KInt y => (x <=? y)%Z
  | KStr x, KStr y => String.leb x y
  | KInt _, KStr _ => true
  | KStr _, KInt _ => false
  end.

Definition direction (o : string) : option (key → key → bool) :=
  if String.eqb o "asc" then Some key_le
  else if String.eqb o "desc" then Some (λ a b, key_le b a)
  else None.

Fixpoint insert_by {A} (le : A → A → bool) (x : A) (l : list A) : list A :=
  match l with
  | [] => [x]
  | y :: l' => if le x y then x :: l else y :: insert_by le x l'
  end.

Definition sort_by {A} (le : A → A → bool) (l : list A) : list A :=
  foldr (insert_by le) [] l.

(** [skip] and [take]: a negative [take] counts from the end of the
    ordered rows. *)
Definition window {A} (skip take : Z) (l : list A) : list A :=
  if (0 <=? take)%Z
  then firstn (Z.to_nat take) (skipn (Z.to_nat skip) l)
  else rev (firstn (Z.to_nat (- take)) (skipn (Z.to_nat skip) (rev l))).

(** *** Relations loaded with a row *)

(** [category: { select: { id, name, color } }] *)
Record CategoryRef := mkCategoryRef {
  cr_id : string;
  cr_name : string;
  cr_color : string
}.

(** A task with [include: { category }]. *)
Record TaskView := mkTaskView {
  tv_id : string;
  tv_task : Task;
  tv_category : option CategoryRef
}.

(** [tasks: { select: { id, title, status, dueDate, createdAt } }] *)
Record TaskRef := mkTaskRef {
  tr_id : string;
  tr_title : string;
  tr_status : TaskStatus;
  tr_dueDate : option Z;
  tr_createdAt : Z
}.

(** A category with [include: { _count: { select: { tasks } } }], and with
    its tasks when they are included too. *)
Record CategoryView := mkCategoryView {
  cv_id : string;
  cv_category : Category;
  cv_count_tasks : nat;
  cv_tasks : option (list TaskRef)
}.

Definition task_view (d : Db) (r : string * Task) : TaskView :=
  mkTaskView r.1 r.2
    (c ← task_categoryId r.2;
     row ← categories d !! c;
     Some (mkCategoryRef c (category_name row) (category_color row))).

(** The tasks related to category [c] through their [categoryId]. *)
Definition tasks_of (d : Db) (c : string) : list (string * Task) :=
  List.filter (λ r, bool_decide (task_categoryId r.2 = Some c)) (map_to_list (tasks d)).

Definition task_ref (r : string * Task) : TaskRef :=
  mkTaskRef r.1 (task_title r.2) (task_status r.2) (task_dueDate r.2) (task_createdAt r.2).

Definition created_desc (a b : string * Task) : bool :=
  (task_createdAt b.2 <=? task_createdAt a.2)%Z.

Definition category_view (with_tasks : bool) (d : Db) (r : string * Category) : CategoryView :=
  mkCategoryView r.1 r.2 (length (tasks_of d r.1))
    (if with_tasks then Some (task_ref <$> sort_by created_desc (tasks_of d r.1)) else None).

(** [include]: the relations are read in the same call as the row. *)
Definition including {A B} (f : Db → A → B) (m : prisma A) : prisma B :=
  λ w, match m w with
       | (Ret a, w') => (Ret (f (db w') a), w')
       | (Throw e, w') => (Throw e, w')
       end.

(** [Promise.all([a, b])]: both calls are made, and the first failure, if
    there is one, is what the handler gets. *)
Definition promise_all {A B} (a : prisma A) (b : prisma B) : prisma (A * B) :=
  λ w, let '(ra, w1) := a w in
       let '(rb, w2) := b w1 in
       (match ra, rb with
        | Ret x, Ret y => Ret (x, y)
        | Throw e, _ => Throw e
        | Ret _, Throw e => Throw e
        end, w2).

(** *** [prisma.task] *)

Definition task_findFirst (w : TaskWhere) : prisma (option (string * Task)) :=
  query (TaskFindFirst w) (λ d,
    if task_where_ok w then (Ret (head (task_rows w d)), d)
    else (Throw ValidationError, d)).

Definition task_count (w : TaskWhere) : prisma nat :=
  query (TaskCount w) (λ d,
    if task_where_ok w then (Ret (length (task_rows w d)), d)
    else (Throw ValidationError, d)).

(** [skip] and [take] are 64-bit signed integers for the client. *)
Definition int64 (z : Z) : bool := ((- 2 ^ 63 <=? z) && (z <? 2 ^ 63))%Z.

#[global] Arguments int64 : simpl never.

(** The ordering that an [orderBy] object asks for: none when the object has
    no key, and no ordering at all when its key is no column or its value no
    direction. Rows with equal keys, and all rows when there is no
    ordering, come in the order in which the table is read, which the
    database does not fix; no property below depends on that order. *)
Definition task_order (orderBy : option (string * string))
    : option (list (string * Task) → list (string * Task)) :=
  match orderBy with
  | None => Some (λ rows, rows)
  | Some (f, o) =>
      match task_column f, direction o with
      | Some col, Some le => Some (sort_by (λ a b, le (col a) (col b)))
      | _, _ => None
      end
  end.

Definition task_findMany (w : TaskWhere) (orderBy : option (string * string))
    (skip take : JS.number) : prisma (list (string * Task)) :=
  query (TaskFindMany w orderBy skip take) (λ d,
    match task_where_ok w, task_order orderBy, skip, take with
    | true, Some order, JS.Num s, JS.Num t =>
        if ((0 <=? s)%Z && int64 s && int64 t)%bool
        then (Ret (window s t (order (task_rows w d))), d)
        else (Throw ValidationError, d)
    | _, _, _, _ => (Throw ValidationError, d)
    end).

Definition date_ok (o : option Date) : option (option Z) :=
  match o with
  | None => Some None
  | Some (DateAt z) => Some (Some z)
  | Some InvalidDate => None
  end.

(** The foreign key of [Task.categoryId]. *)
Definition category_exists (d : Db) (c : option string) : bool :=
  match c with
  | Some i => bool_decide (is_Some (categories d !! i))
  | None => true
  end.

(** [task.create]: [cuid] is the identifier that [@default(cuid())] draws and
    [now] the time of the call. The limits of the database on the values of
    a column (a text without the character of code 0, an instant within the
    range of a timestamp) are not part of the model: a row is stored
    whatever its texts and instants are. *)
Definition task_create (cuid : string) (now : Z) (data : TaskCreate)
    : prisma (string * Task) :=
  query (TaskCreateCall data) (λ d,
    match tc_title data, parse_status (tc_status data), date_ok (tc_dueDate data) with
    | Some title, Some st, Some due =>
        if bool_decide (is_Some (tasks d !! cuid)) then (Throw UniqueViolation, d)
        else if negb (category_exists d (tc_categoryId data))
        then (Throw ForeignKeyViolation, d)
        else
          let row := mkTask title (tc_description data) due st (tc_userId data)
                            (tc_categoryId data) now now in
          (Ret (cuid, row), mkDb (<[cuid := row]> (tasks d)) (categories d))
    | _, _, _ => (Throw ValidationError, d)
    end).

(** [data] without a key. *)
Definition no_task_data (data : TaskUpdate) : bool :=
  match tu_title data, tu_description data, tu_dueDate data, tu_status data,
        tu_categoryId data with
  | None, None, None, None, None => true
  | _, _, _, _, _ => false
  end.

(** The row after an update: with no key in [data] nothing is written, and
    [updatedAt] stays as it is; otherwise the columns given are set and
    [@updatedAt] becomes the time of the call. *)
Definition patch_task (now : Z) (data : TaskUpdate) (st : option TaskStatus)
    (due : option (option Z)) (t : Task) : Task :=
  if no_task_data data then t else
  mkTask (default (task_title t) (tu_title data))
         (match tu_description data with
          | Some s => Some s
          | None => task_description t
          end)
         (default (task_dueDate t) due)
         (default (task_status t) st)
         (task_userId t)
         (match tu_categoryId data with
          | Some c => Some c
          | None => task_categoryId t
          end)
         (task_createdAt t)
         now.

(** [task.update({ where: { id }, data })] *)
Definition task_update (id : string) (now : Z) (data : TaskUpdate)
    : prisma (string * Task) :=
  query (TaskUpdateCall id data) (λ d,
    let st := match tu_status data with
              | Some s => Some <$> parse_status s
              | None => Some None
              end in
    let due := match tu_dueDate data with
               | Some o => Some <$> date_ok o
               | None => Some None
               end in
    match st, due with
    | Some st, Some due =>
        match tasks d !! id with
        | None => (Throw RecordNotFound, d)
        | Some t =>
            if negb (category_exists d (tu_categoryId data))
            then (Throw ForeignKeyViolation, d)
            else
              let row := patch_task now data st due t in
              (Ret (id, row), mkDb (<[id := row]> (tasks d)) (categories d))
        end
    | _, _ => (Throw ValidationError, d)
    end).

(** [task.delete({ where: { id } })] *)
Definition task_delete (id : string) : prisma unit :=
  query (TaskDeleteCall id) (λ d,
    match tasks d !! id with
    | None => (Throw RecordNotFound, d)
    | Some _ => (Ret (), mkDb (delete id (tasks d)) (categories d))
    end).

(** *** [prisma.category] *)

Definition category_column (f : string) : option (string * Category → key) :=
  if String.eqb f "id" then Some (λ r, KStr r.1)
  else if String.eqb f "name" then Some (λ r, KStr (category_name r.2))
  else if String.eqb f "color" then Some (λ r, KStr (category_color r.2))
  else if String.eqb f "userId" then Some (λ r, KStr (category_userId r.2))
  else if String.eqb f "createdAt" then Some (λ r, KInt (category_createdAt r.2))
  else if String.eqb f "updatedAt" then Some (λ r, KInt (category_updatedAt r.2))
  else None.

Definition category_findMany (w : CategoryWhere) (orderBy : string * string)
    : prisma (list (string * Category)) :=
  query (CategoryFindMany w orderBy) (λ d,
    match category_column orderBy.1, direction orderBy.2 with
    | Some col, Some le =>
        (Ret (sort_by (λ a b, le (col a) (col b)) (category_rows w d)), d)
    | _, _ => (Throw ValidationError, d)
    end).

Definition category_findFirst (w : CategoryWhere) : prisma (option (string * Category)) :=
  query (CategoryFindFirst w) (λ d, (Ret (head (category_rows w d)), d)).

Definition category_create (cuid : string) (now : Z) (data : CategoryCreate)
    : prisma (string * Category) :=
  query (CategoryCreateCall data) (λ d,
    match cc_name data with
    | Some name =>
        if bool_decide (is_Some (categories d !! cuid)) then (Throw UniqueViolation, d)
        else
          let row := mkCategory name (cc_color data) (cc_userId data) now now in
          (Ret (cuid, row), mkDb (tasks d) (<[cuid := row]> (categories d)))
    | None => (Throw ValidationError, d)
    end).

Definition no_category_data (data : CategoryUpdate) : bool :=
  match cu_name data, cu_color data with
  | None, None => true
  | _, _ => false
  end.

Definition patch_category (now : Z) (data : CategoryUpdate) (c : Category) : Category :=
  if no_category_data data then c else
  mkCategory (default (category_name c) (cu_name data))
             (default (category_color c) (cu_color data))
             (category_userId c)
             (category_createdAt c)
             now.

Definition category_update (id : string) (now : Z) (data : CategoryUpdate)
    : prisma (string * Category) :=
  query (CategoryUpdateCall id data) (λ d,
    match categories d !! id with
    | None => (Throw RecordNotFound, d)
    | Some c =>
        let row := patch_category now data c in
        (Ret (id, row), mkDb (tasks d) (<[id := row]> (categories d)))
    end).

(** [onDelete: SetNull] of [Task.category] *)
Definition set_null (id : string) (t : Task) : Task :=
  if bool_decide (task_categoryId t = Some id)
  then mkTask (task_title t) (task_description t) (task_dueDate t) (task_status t)
              (task_userId t) None (task_createdAt t) (task_updatedAt t)
  else t.

(** [category.delete({ where: { id } })] *)
Definition category_delete (id : string) : prisma unit :=
  query (CategoryDeleteCall id) (λ d,
    match categories d !! id with
    | None => (Throw RecordNotFound, d)
    | Some _ => (Ret (), mkDb (set_null id <$> tasks d) (delete id (categories d)))
    end).

End Prisma.

Import Prisma.

Notation "'let*' x ':=' m 'in' k" := (bind m (λ x, k))
  (at level 10, x name, m at level 100, k at level 200, only parsing).

(** ** Requests and responses *)

(** The query string of [GET /api/tasks]; a key that is absent is [None]. *)
Record TaskQuery := mkTaskQuery {
  q_page : option string;
  q_limit : option string;
  q_status : option string;
  q_categoryId : option string;
  q_search : option string;
  q_sortBy : option string;
  q_sortOrder : option string
}.

(** The [dueDate] of a request body, by what [new Date] makes of it. *)
Inductive DateInput :=
| DateEmpty                          (* a falsy value *)
| DateIso (ms : Z)                   (* a string that denotes an instant *)
| DateGarbage.                       (* any other string *)

Definition new_Date (i : DateInput) : Date :=
  match i with
  | DateIso z => DateAt z
  | _ => InvalidDate
  end.

Definition date_truthy (i : DateInput) : bool :=
  match i with
  | DateEmpty => false
  | _ => true
  end.

(** The body of [POST] and [PUT /api/tasks]. *)
Record TaskBody := mkTaskBody {
  b_title : option string;
  b_description : option string;
  b_dueDate : option DateInput;
  b_status : option string;
  b_categoryId : option string
}.

(** The body of [POST] and [PUT /api/categories]. *)
Record CategoryBody := mkCategoryBody {
  b_name : option string;
  b_color : option string
}.

Inductive Body :=
| Message (success : bool) (message : string)
| TaskPage (tasks : list TaskView) (page limit : JS.number) (total : nat) (pages : JS.number)
| TaskData (message : option string) (task : TaskView)
| TaskStats (totalTasks pendingTasks inProgressTasks completedTasks overdueTasks : nat)
| CategoryList (categories : list CategoryView)
| CategoryData (message : option string) (category : CategoryView)
| ValidationFailed (key : string)    (* message: 'Validation error', details *)
| InternalError.

Record Response := mkResponse { status : Z; body : Body }.

(** [res.json(b)] *)
Definition json (b : Body) : Response := mkResponse 200 b.

(** [v] when it is truthy, as in [if (v) where.k = v] and [...(v && { k: v })]. *)
Definition when_truthy (v : option string) : option string :=
  if JS.truthy v then v else None.

(** Modelled from the spec: the error handler (middleware/errorHandler) is
    not among the sources; in the spec any failure of the persistence layer
    surfaces as Internal, status 500, with a generic message. *)
Definition errorHandler (e : Error) : Response := mkResponse 500 InternalError.

(** [asyncHandler(h)]: what [h] throws goes to the error handler. *)
Definition asyncHandler (h : prisma Response) (d : Db) : Response * World :=
  match h (mkWorld d []) with
  | (Ret r, w) => (r, w)
  | (Throw e, w) => (errorHandler e, w)
  end.

(** ** utils/validation.ts *)

Module Validation.

(** [Joi.string().min(lo).max(hi)]: the empty string is not a string for Joi. *)
Definition joi_string (lo hi : nat) (s : string) : bool :=
  (negb (String.eqb s "") && (lo <=? String.length s)%nat
   && (String.length s <=? hi)%nat)%bool.

(** [Joi.string()] *)
Definition joi_any_string (s : string) : bool := negb (String.eqb s "").

(** [Joi.date().iso()] *)
Definition joi_date (i : DateInput) : bool :=
  match i with
  | DateIso _ => true
  | _ => false
  end.

(** [.required()] and [.optional()] over a rule for the value. *)
Definition required {A} (rule : A → bool) (v : option A) : bool :=
  match v with
  | Some a => rule a
  | None => false
  end.

Definition optional {A} (rule : A → bool) (v : option A) : bool :=
  match v with
  | Some a => rule a
  | None => true
  end.

(** The first key that a schema rejects, if any. *)
Fixpoint first_error (rules : list (string * bool)) : option string :=
  match rules with
  | [] => None
  | (k, ok) :: rest => if ok then first_error rest else Some k
  end.

Definition createTaskSchema (b : TaskBody) : option string :=
  first_error
    [("title", required (joi_string 1 200) (b_title b));
     ("description", optional (joi_string 0 1000) (b_description b));
     ("dueDate", optional joi_date (b_dueDate b));
     ("status", optional is_enum (b_status b));
     ("categoryId", optional joi_any_string (b_categoryId b))].

Definition updateTaskSchema (b : TaskBody) : option string :=
  first_error
    [("title", optional (joi_string 1 200) (b_title b));
     ("description", optional (joi_string 0 1000) (b_description b));
     ("dueDate", optional joi_date (b_dueDate b));
     ("status", optional is_enum (b_status b));
     ("categoryId", optional joi_any_string (b_categoryId b))].

Fixpoint all_hex (s : string) : bool :=
  match s with
  | String c s' =>
      (match JS.digit_val c with
       | Some d => (d <? 16)%Z
       | None => false
       end && all_hex s')%bool
  | EmptyString => true
  end.

(** [/^#[0-9A-F]{6}$/i] *)
Definition hex_color (s : string) : bool :=
  match s with
  | String "#" r => ((String.length r =? 6)%nat && all_hex r)%bool
  | _ => false
  end.

Definition createCategorySchema (b : CategoryBody) : option string :=
  first_error
    [("name", required (joi_string 1 50) (b_name b));
     ("color", optional hex_color (b_color b))].

Definition updateCategorySchema (b : CategoryBody) : option string :=
  first_error
    [("name", optional (joi_string 1 50) (b_name b));
     ("color", optional hex_color (b_color b))].

(** [validate(schema)] before a handler; [key] stands for the message that
    Joi writes about the key it rejects. *)
Definition validate {B} (schema : B → option string) (b : B) (next : prisma Response)
    : prisma Response :=
  match schema b with
  | Some key => ret (mkResponse 400 (ValidationFailed key))
  | None => next
  end.

End Validation.

(** ** routes/tasks.ts *)

Module Tasks.

Definition task_by_id (id userId : string) : TaskWhere :=
  mkTaskWhere (Some id) (Some userId) None None None None.

Definition owned_category (id userId : string) : CategoryWhere :=
  mkCategoryWhere (Some (Is id)) (Some userId) None.

Definition category_missing : Response :=
  mkResponse 400 (Message false "Category not found or does not belong to user").

Definition task_not_found : Response := mkResponse 404 (Message false "Task not found").

(** The [where] clause that [getTasks] builds from the query. *)
Definition tasks_where (userId : string) (q : TaskQuery) : TaskWhere :=
  mkTaskWhere None (Some userId)
              (Equals <$> when_truthy (q_status q))
              (when_truthy (q_categoryId q))
              None
              (when_truthy (q_search q)).

(** [orderBy[sortBy] = sortOrder] on an empty object: the name [__proto__]
    is the one name for which the assignment of a string adds no key. *)
Definition order_by (sortBy sortOrder : string) : option (string * string) :=
  if String.eqb sortBy "__proto__" then None else Some (sortBy, sortOrder).

(** GET /api/tasks *)
Definition getTasks (userId : string) (q : TaskQuery) : prisma Response :=
  let page := default "1" (q_page q) in
  let limit := default "10" (q_limit q) in
  let sortBy := default "createdAt" (q_sortBy q) in
  let sortOrder := default "desc" (q_sortOrder q) in
  let pageNum := JS.parseInt page in
  let limitNum := JS.parseInt limit in
  let skip := JS.mul (JS.sub pageNum (JS.Num 1)) limitNum in
  let where_ := tasks_where userId q in
  let orderBy := order_by sortBy sortOrder in
  let* both := promise_all
             (including (λ d, fmap (task_view d))
                (task_findMany where_ orderBy skip limitNum))
             (task_count where_) in
  let tasks := both.1 in
  let total := both.2 in
  ret (json (TaskPage tasks pageNum limitNum total
                      (JS.ceil_div (Z.of_nat total) limitNum))).

(** GET /api/tasks/:id *)
Definition getTask (userId id : string) : prisma Response :=
  let* task := including (λ d, fmap (task_view d)) (task_findFirst (task_by_id id userId)) in
  match task with
  | None => ret task_not_found
  | Some task => ret (json (TaskData None task))
  end.

(** POST /api/tasks *)
Definition createTask (cuid : string) (now : Z) (userId : string) (b : TaskBody)
    : prisma Response :=
  let create :=
    let* task := including task_view
              (task_create cuid now
                 (mkTaskCreate (b_title b) (b_description b)
                    (match b_dueDate b with
                     | Some i => if date_truthy i then Some (new_Date i) else None
                     | None => None
                     end)
                    (JS.or_else (b_status b) "PENDING")
                    userId
                    (b_categoryId b))) in
    ret (mkResponse 201 (TaskData (Some "Task created successfully") task)) in
  if JS.truthy (b_categoryId b) then
    let* category := category_findFirst (owned_category (default "" (b_categoryId b)) userId) in
    match category with
    | None => ret category_missing
    | Some _ => create
    end
  else create.

(** PUT /api/tasks/:id *)
Definition updateTask (now : Z) (userId id : string) (b : TaskBody) : prisma Response :=
  let* existingTask := task_findFirst (task_by_id id userId) in
  match existingTask with
  | None => ret task_not_found
  | Some _ =>
      let update :=
        let* task := including task_view
                  (task_update id now
                     (mkTaskUpdate (when_truthy (b_title b))
                        (b_description b)
                        ((λ i, if date_truthy i then Some (new_Date i) else None)
                           <$> b_dueDate b)
                        (when_truthy (b_status b))
                        (b_categoryId b))) in
        ret (json (TaskData (Some "Task updated successfully") task)) in
      if JS.truthy (b_categoryId b) then
        let* category := category_findFirst (owned_category (default "" (b_categoryId b)) userId) in
        match category with
        | None => ret category_missing
        | Some _ => update
        end
      else update
  end.

(** DELETE /api/tasks/:id *)
Definition deleteTask (userId id : string) : prisma Response :=
  let* task := task_findFirst (task_by_id id userId) in
  match task with
  | None => ret task_not_found
  | Some _ =>
      let* _ := task_delete id in
      ret (json (Message true "Task deleted successfully"))
  end.

Definition with_status (userId s : string) : TaskWhere :=
  mkTaskWhere None (Some userId) (Some (Equals s)) None None None.

(** GET /api/tasks/stats; [now] is [new Date()]. The five counts of
    [Promise.all] are taken one after the other on the same store. *)
Definition getTaskStats (now : Z) (userId : string) : prisma Response :=
  let* totalTasks := task_count (mkTaskWhere None (Some userId) None None None None) in
  let* pendingTasks := task_count (with_status userId "PENDING") in
  let* inProgressTasks := task_count (with_status userId "IN_PROGRESS") in
  let* completedTasks := task_count (with_status userId "COMPLETED") in
  let* overdueTasks := task_count
    (mkTaskWhere None (Some userId) (Some (NotIn ["COMPLETED"; "CANCELLED"]))
                 None (Some now) None) in
  ret (json (TaskStats totalTasks pendingTasks inProgressTasks completedTasks
                       overdueTasks)).

End Tasks.

(** ** routes/categories.ts *)

Module Categories.

Definition category_by_id (id userId : string) : CategoryWhere :=
  mkCategoryWhere (Some (Is id)) (Some userId) None.

Definition category_not_found : Response := mkResponse 404 (Message false "Category not found").

Definition name_taken : Response :=
  mkResponse 400 (Message false "Category with this name already exists").

(** GET /api/categories *)
Definition getCategories (userId : string) : prisma Response :=
  let* categories := including (λ d, fmap (category_view false d))
                  (category_findMany (mkCategoryWhere None (Some userId) None)
                                     ("createdAt", "desc")) in
  ret (json (CategoryList categories)).

(** GET /api/categories/:id *)
Definition getCategory (userId id : string) : prisma Response :=
  let* category := including (λ d, fmap (category_view true d))
                (category_findFirst (category_by_id id userId)) in
  match category with
  | None => ret category_not_found
  | Some category => ret (json (CategoryData None category))
  end.

(** POST /api/categories *)
Definition createCategory (cuid : string) (now : Z) (userId : string) (b : CategoryBody)
    : prisma Response :=
  let* existingCategory := category_findFirst (mkCategoryWhere None (Some userId) (b_name b)) in
  match existingCategory with
  | Some _ => ret name_taken
  | None =>
      let* category := including (category_view false)
                    (category_create cuid now
                       (mkCategoryCreate (b_name b) (JS.or_else (b_color b) "#3B82F6")
                                         userId)) in
      ret (mkResponse 201 (CategoryData (Some "Category created successfully") category))
  end.

(** PUT /api/categories/:id *)
Definition updateCategory (now : Z) (userId id : string) (b : CategoryBody)
    : prisma Response :=
  let* existingCategory := category_findFirst (category_by_id id userId) in
  match existingCategory with
  | None => ret category_not_found
  | Some existing =>
      let update :=
        let* category := including (category_view false)
                      (category_update id now
                         (mkCategoryUpdate (when_truthy (b_name b))
                                           (when_truthy (b_color b)))) in
        ret (json (CategoryData (Some "Category updated successfully") category)) in
      if (JS.truthy (b_name b)
          && negb (bool_decide (b_name b = Some (category_name existing.2))))%bool
      then
        let* nameConflict := category_findFirst
                          (mkCategoryWhere (Some (Not id)) (Some userId) (b_name b)) in
        match nameConflict with
        | Some _ => ret name_taken
        | None => update
        end
      else update
  end.

(** DELETE /api/categories/:id *)
Definition deleteCategory (userId id : string) : prisma Response :=
  let* category := category_findFirst (category_by_id id userId) in
  match category with
  | None => ret category_not_found
  | Some _ =>
      let* taskCount := task_count (mkTaskWhere None None None (Some id) None None) in
      if (0 <? taskCount)%nat
      then ret (mkResponse 400 (Message false
                  ("Cannot delete category. It has " +:+ pretty taskCount +:+
                   " associated tasks. Please move or delete the tasks first.")))
      else
        let* _ := category_delete id in
        ret (json (Message true "Category deleted successfully"))
  end.

End Categories.

(** ** utils/jwt.ts *)

Module Jwt.

(** The claims of a token: the [id] given by the caller, [iat], [exp] and
    [iss] as jsonwebtoken sets them, and [nbf], which a token made elsewhere
    may carry (times in seconds). *)
Record JwtPayload := mkJwtPayload {
  jp_id : string;
  jp_iat : option Z;
  jp_exp : option Z;
  jp_iss : option string;
  jp_nbf : option Z
}.

(** A token string, by what jsonwebtoken can read from it: a payload with a
    signature made with some secret, or text that it refuses whatever the
    secret is (no token at all, an algorithm that it does not take with a
    secret, a time claim that is no number). *)
Inductive Token :=
| Signed (payload : JwtPayload) (secret : string)
| Malformed (text : string).

Inductive result (A : Type) := Ok (a : A) | Err (message : string).
Arguments Ok {A} a.
Arguments Err {A} message.

Section jsonwebtoken.

(** The time span parser of the [ms] package: the milliseconds that a string
    such as ["1h"] denotes, if it denotes any. *)
Variable ms : string → option Z.

(** [jwt.sign({ id }, secret, { expiresIn, issuer })] at time [clock]. *)
Definition sign (clock : Z) (id secret expiresIn issuer : string) : result Token :=
  match ms expiresIn with
  | Some span =>
      Ok (Signed (mkJwtPayload id (Some clock) (Some (clock + span / 1000)%Z)
                               (Some issuer) None) secret)
  | None => Err "expiresIn should be a number of seconds or string representing a timespan"
  end.

(** [jwt.verify(token, secret)] at time [clock]: the signature, then
    [nbf], then [exp]. *)
Definition verify (clock : Z) (token : Token) (secret : string) : result JwtPayload :=
  match token with
  | Malformed _ => Err "jwt malformed"
  | Signed payload key =>
      if negb (String.eqb key secret) then Err "invalid signature"
      else if from_option (λ n, clock <? n)%Z false (jp_nbf payload)
      then Err "jwt not active"
      else
        match jp_exp payload with
        | Some e => if (e <=? clock)%Z then Err "jwt expired" else Ok payload
        | None => Ok payload
        end
  end.

(** [process.env] *)
Definition generateAccessToken (env : gmap string string) (clock : Z) (userId : string)
    : result Token :=
  let secret := env !! "JWT_SECRET" in
  if negb (JS.truthy secret) then Err "JWT_SECRET environment variable is not set"
  else sign clock userId (default "" secret)
            (JS.or_else (env !! "JWT_EXPIRE") "1h") "task-manager-api".

Definition generateRefreshToken (env : gmap string string) (clock : Z) (userId : string)
    : result Token :=
  let secret := env !! "JWT_REFRESH_SECRET" in
  if negb (JS.truthy secret) then Err "JWT_REFRESH_SECRET environment variable is not set"
  else sign clock userId (default "" secret)
            (JS.or_else (env !! "JWT_REFRESH_EXPIRE") "7d") "task-manager-api".

Definition verifyAccessToken (env : gmap string string) (clock : Z) (token : Token)
    : result JwtPayload :=
  let secret := env !! "JWT_SECRET" in
  if negb (JS.truthy secret) then Err "JWT_SECRET environment variable is not set"
  else
    match verify clock token (default "" secret) with
    | Ok decoded => Ok decoded
    | Err _ => Err "Invalid or expired token"
    end.

Definition verifyRefreshToken (env : gmap string string) (clock : Z) (token : Token)
    : result JwtPayload :=
  let secret := env !! "JWT_REFRESH_SECRET" in
  if negb (JS.truthy secret) then Err "JWT_REFRESH_SECRET environment variable is not set"
  else
    match verify clock token (default "" secret) with
    | Ok decoded => Ok decoded
    | Err _ => Err "Invalid or expired refresh token"
    end.

End jsonwebtoken.

Fixpoint drop_digits (s : string) : string :=
  match s with
  | String c s' =>
      if (N.leb 48 (N_of_ascii c) && N.leb (N_of_ascii c) 57)%bool
      then drop_digits s' else s
  | EmptyString => s
  end.

(** A time span parser for the forms written in the configuration: a decimal
    count followed by one of the units s, m, h and d, or by nothing
    (milliseconds). *)
Definition ms_units (s : string) : option Z :=
  match JS.digits 10 s None with
  | None => None
  | Some n =>
      let unit := drop_digits s in
      if String.eqb unit "" then Some n
      else if String.eqb unit "s" then Some (n * 1000)%Z
      else if String.eqb unit "m" then Some (n * 60000)%Z
      else if String.eqb unit "h" then Some (n * 3600000)%Z
      else if String.eqb unit "d" then Some (n * 86400000)%Z
      else None
  end.

End Jwt.

(** ** server.ts *)

Module Server.

Inductive Process :=
| Listening (port : string)          (* app.listen(PORT, ...) *)
| Exited (code : Z).                 (* process.exit(code) *)

(** [startServer()]: [connected] tells whether [prisma.$connect()] resolved. *)
Definition startServer (env : gmap string string) (connected : bool) : Process :=
  if connected then Listening (JS.or_else (env !! "PORT") "3000") else Exited 1.

End Server.

(** ** The routes behind [protect] *)

(** An operation of the API on tasks and categories, with what the request
    carries; [cuid] is the identifier that a creation draws. *)
Inductive Op :=
| GetTasks (q : TaskQuery)
| GetTask (id : string)
| CreateTask (cuid : string) (b : TaskBody)
| UpdateTask (id : string) (b : TaskBody)
| DeleteTask (id : string)
| GetTaskStats
| GetCategories
| GetCategory (id : string)
| CreateCategory (cuid : string) (b : CategoryBody)
| UpdateCategory (id : string) (b : CategoryBody)
| DeleteCategory (id : string).

(** The handler chain that the routers register for an operation, for the
    user that [protect] put in the request. *)
Definition route (now : Z) (userId : string) (op : Op) : prisma Response :=
  match op with
  | GetTasks q => Tasks.getTasks userId q
  | GetTask id => Tasks.getTask userId id
  | CreateTask cuid b =>
      Validation.validate Validation.createTaskSchema b (Tasks.createTask cuid now userId b)
  | UpdateTask id b =>
      Validation.validate Validation.updateTaskSchema b (Tasks.updateTask now userId id b)
  | DeleteTask id => Tasks.deleteTask userId id
  | GetTaskStats => Tasks.getTaskStats now userId
  | GetCategories => Categories.getCategories userId
  | GetCategory id => Categories.getCategory userId id
  | CreateCategory cuid b =>
      Validation.validate Validation.createCategorySchema b
        (Categories.createCategory cuid now userId b)
  | UpdateCategory id b =>
      Validation.validate Validation.updateCategorySchema b
        (Categories.updateCategory now userId id b)
  | DeleteCategory id => Categories.deleteCategory userId id
  end.

Definition run (now : Z) (userId : string) (op : Op) (d : Db) : Response * World :=
  asyncHandler (route now userId op) d.


(** ** routes/auth.ts *)

Module Auth.

(** A row of the [users] table, stored under its [id]; [email] is unique. *)
Record User := mkUser {
  user_email : string;
  user_name : string;
  user_password : string;
  user_createdAt : Z;
  user_updatedAt : Z
}.

(** [select: { id, name, email, createdAt }] *)
Record PublicUser := mkPublicUser {
  pu_id : string;
  pu_name : string;
  pu_email : string;
  pu_createdAt : Z
}.

(** [select: { id, name, email, createdAt, updatedAt }] *)
Record Profile := mkProfile {
  pr_id : string;
  pr_name : string;
  pr_email : string;
  pr_createdAt : Z;
  pr_updatedAt : Z
}.

(** The bodies of the two requests, with the keys that their schemas
    require. *)
Record RegisterBody := mkRegisterBody {
  rb_name : string;
  rb_email : string;
  rb_password : string
}.

Record LoginBody := mkLoginBody {
  lb_email : string;
  lb_password : string
}.

Inductive AuthBody :=
| AuthMessage (success : bool) (message : string)
| Registered (user : PublicUser) (token refreshToken : Jwt.Token)
| LoggedIn (user : PublicUser) (token refreshToken : Jwt.Token)
| Refreshed (token refreshToken : Jwt.Token)
| Me (user : option Profile).

Record AuthResponse := mkAuthResponse { auth_status : Z; auth_body : AuthBody }.

(** What a handler throws: an error of the client, or a JavaScript error
    with its message. *)
Inductive Thrown :=
| ClientError (e : Error)
| JsError (message : string).

Definition public (id : string) (u : User) : PublicUser :=
  mkPublicUser id (user_name u) (user_email u) (user_createdAt u).

Definition profile (id : string) (u : User) : Profile :=
  mkProfile id (user_name u) (user_email u) (user_createdAt u) (user_updatedAt u).

(** [prisma.user.findUnique({ where: { email } })] *)
Definition findUnique_email (email : string) (users : gmap string User)
    : option (string * User) :=
  head (List.filter (λ r, String.eqb (user_email r.2) email) (map_to_list users)).

(** [!refreshToken] *)
Definition token_falsy (t : option Jwt.Token) : bool :=
  match t with
  | None => true
  | Some (Jwt.Malformed text) => String.eqb text ""
  | Some (Jwt.Signed _ _) => false
  end.

Definition invalid_credentials : AuthResponse :=
  mkAuthResponse 401 (AuthMessage false "Invalid credentials").

Definition invalid_refresh_token : AuthResponse :=
  mkAuthResponse 401 (AuthMessage false "Invalid refresh token").

Section handlers.

(** The time span parser of [ms] and the two functions of bcryptjs: the
    hash of a password with a salt, and the comparison of a password with a
    hash. *)
Variable ms : string → option Z.
Variable hash : string → string → string.
Variable compare : string → string → bool.

(** POST /api/auth/register. [cuid] is the identifier that the creation
    draws, [salt] the salt of [bcrypt.genSalt(12)], [now] the time of the
    creation and [clock] the time in seconds at which the tokens are
    signed. *)
Definition register (cuid salt : string) (now clock : Z) (env : gmap string string)
    (b : RegisterBody) (users : gmap string User)
    : (AuthResponse + Thrown) * gmap string User :=
  match findUnique_email (rb_email b) users with
  | Some _ =>
      (inl (mkAuthResponse 400 (AuthMessage false "User already exists with this email")),
       users)
  | None =>
      let hashedPassword := hash (rb_password b) salt in
      if bool_decide (is_Some (users !! cuid))
      then (inr (ClientError UniqueViolation), users)
      else
        let row := mkUser (rb_email b) (rb_name b) hashedPassword now now in
        let users' := <[cuid := row]> users in
        match Jwt.generateAccessToken ms env clock cuid with
        | Jwt.Err m => (inr (JsError m), users')
        | Jwt.Ok token =>
            match Jwt.generateRefreshToken ms env clock cuid with
            | Jwt.Err m => (inr (JsError m), users')
            | Jwt.Ok refreshToken =>
                (inl (mkAuthResponse 201 (Registered (public cuid row) token refreshToken)),
                 users')
            end
        end
  end.

(** POST /api/auth/login *)
Definition login (clock : Z) (env : gmap string string) (b : LoginBody)
    (users : gmap string User) : (AuthResponse + Thrown) * gmap string User :=
  match findUnique_email (lb_email b) users with
  | None => (inl invalid_credentials, users)
  | Some (id, user) =>
      if negb (compare (lb_password b) (user_password user))
      then (inl invalid_credentials, users)
      else
        match Jwt.generateAccessToken ms env clock id with
        | Jwt.Err m => (inr (JsError m), users)
        | Jwt.Ok token =>
            match Jwt.generateRefreshToken ms env clock id with
            | Jwt.Err m => (inr (JsError m), users)
            | Jwt.Ok refreshToken =>
                (inl (mkAuthResponse 200 (LoggedIn (public id user) token refreshToken)),
                 users)
            end
        end
  end.

(** POST /api/auth/refresh: whatever is thrown after the first test is
    caught and answered with 401. *)
Definition refreshToken (clock : Z) (env : gmap string string)
    (token : option Jwt.Token) (users : gmap string User)
    : (AuthResponse + Thrown) * gmap string User :=
  if token_falsy token
  then (inl (mkAuthResponse 401 (AuthMessage false "Refresh token is required")), users)
  else
    match Jwt.verifyRefreshToken env clock (default (Jwt.Malformed "") token) with
    | Jwt.Err _ => (inl invalid_refresh_token, users)
    | Jwt.Ok decoded =>
        match users !! Jwt.jp_id decoded with
        | None => (inl invalid_refresh_token, users)
        | Some user =>
            match Jwt.generateAccessToken ms env clock (Jwt.jp_id decoded) with
            | Jwt.Err _ => (inl invalid_refresh_token, users)
            | Jwt.Ok newToken =>
                match Jwt.generateRefreshToken ms env clock (Jwt.jp_id decoded) with
                | Jwt.Err _ => (inl invalid_refresh_token, users)
                | Jwt.Ok newRefreshToken =>
                    (inl (mkAuthResponse 200 (Refreshed newToken newRefreshToken)), users)
                end
            end
        end
    end.

(** GET /api/auth/me, for the user that [protect] put in the request. *)
Definition getMe (userId : string) (users : gmap string User)
    : (AuthResponse + Thrown) * gmap string User :=
  (inl (mkAuthResponse 200 (Me (profile userId <$> users !! userId))), users).

End handlers.

End Auth.
(** * Specification *)

(** A record that the user may not see: none under the identifier, or one
    of another owner. *)
Definition no_task_of (u id : string) (d : Db) : Prop :=
  ∀ t, tasks d !! id = Some t → task_userId t ≠ u.

Definition no_category_of (u id : string) (d : Db) : Prop :=
  ∀ c, categories d !! id = Some c → category_userId c ≠ u.

(** A small store: Alice owns two categories and a task in one of them, Bob
    owns a task without a category. *)
Definition sample_db : Db :=
  mkDb {[ "t1" := mkTask "Buy milk" None (Some 50%Z) PENDING "alice" (Some "c1") 10 10;
          "t2" := mkTask "Pay rent" (Some "monthly") None COMPLETED "bob" None 20 20 ]}
       {[ "c1" := mkCategory "Work" "#3B82F6" "alice" 5 5;
          "c2" := mkCategory "Home" "#10B981" "alice" 6 6 ]}.

(** [where: { categoryId: id }] *)
Definition in_category (id : string) : TaskWhere :=
  mkTaskWhere None None None (Some id) None None.

#[global] Instance TaskStatus_eq_dec : EqDecision TaskStatus.
Proof. solve_decision. Defined.

(** A task is overdue at [now] when it has a due time strictly before [now]
    and is neither completed nor cancelled. *)
Definition overdue (now : Z) (t : Task) : Prop :=
  match task_dueDate t with
  | Some due => (due < now)%Z
  | None => False
  end
  ∧ task_status t ≠ COMPLETED ∧ task_status t ≠ CANCELLED.

#[global] Instance overdue_dec (now : Z) (t : Task) : Decision (overdue now t).
Proof. unfold overdue. destruct (task_dueDate t); apply _. Defined.

(** The [overdueTasks] of a statistics response. *)
Definition overdueTasks (r : Response) : option nat :=
  match body r with
  | TaskStats _ _ _ _ n => Some n
  | _ => None
  end.

(** The store with one more task. *)
Definition add_task (i : string) (t : Task) (d : Db) : Db :=
  mkDb (<[i := t]> (tasks d)) (categories d).



(** The identifiers of the tasks of a page, and its page count. *)
Definition page_ids (r : Response) : list string :=
  match body r with
  | TaskPage tasks _ _ _ _ => tv_id <$> tasks
  | _ => []
  end.


(** *** Owner scoping *)

(** A lookup or an aggregate carries the predicate [userId = u]. *)
Definition reads_owner (u : string) (c : Call) : Prop :=
  match c with
  | TaskFindMany w _ _ _ | TaskFindFirst w | TaskCount w => tw_userId w = Some u
  | CategoryFindMany w _ | CategoryFindFirst w => cw_userId w = Some u
  | _ => True
  end.

(** The rows of users other than [u] are the same in [d] and [d']. *)
Definition others_untouched (u : string) (d d' : Db) : Prop :=
  (∀ i t, task_userId t ≠ u → tasks d !! i = Some t ↔ tasks d' !! i = Some t)
  ∧ (∀ i c, category_userId c ≠ u →
       categories d !! i = Some c ↔ categories d' !! i = Some c).

(** The task and category records of a response body. *)
Definition task_rows_in (b : Body) : list (string * Task) :=
  match b with
  | TaskPage ts _ _ _ _ => (λ v, (tv_id v, tv_task v)) <$> ts
  | TaskData _ v => [(tv_id v, tv_task v)]
  | _ => []
  end.

Definition category_rows_in (b : Body) : list (string * Category) :=
  match b with
  | CategoryList cs => (λ v, (cv_id v, cv_category v)) <$> cs
  | CategoryData _ v => [(cv_id v, cv_category v)]
  | _ => []
  end.

(** The identifiers of the records that a body includes through a relation:
    the category of a task, the tasks of a category. *)
Definition category_refs_in (b : Body) : list string :=
  match b with
  | TaskPage ts _ _ _ _ => omap (λ v, cr_id <$> tv_category v) ts
  | TaskData _ v => option_list (cr_id <$> tv_category v)
  | _ => []
  end.

Definition included_tasks (v : CategoryView) : list string :=
  tr_id <$> default [] (cv_tasks v).

Definition task_refs_in (b : Body) : list string :=
  match b with
  | CategoryList cs => cs ≫= included_tasks
  | CategoryData _ v => included_tasks v
  | _ => []
  end.

(** Every record of the body is a row of the store [d'] that [u] owns. *)
Definition returns_own (u : string) (d' : Db) (b : Body) : Prop :=
  (∀ r, r ∈ task_rows_in b → tasks d' !! r.1 = Some r.2 ∧ task_userId r.2 = u)
  ∧ (∀ r, r ∈ category_rows_in b →
       categories d' !! r.1 = Some r.2 ∧ category_userId r.2 = u).

(** Every record included through a relation is a row that [u] owns. *)
Definition includes_own (u : string) (d' : Db) (b : Body) : Prop :=
  (∀ i, i ∈ task_refs_in b → ∃ t, tasks d' !! i = Some t ∧ task_userId t = u)
  ∧ (∀ i, i ∈ category_refs_in b →
       ∃ c, categories d' !! i = Some c ∧ category_userId c = u).

(** The category of every task exists and belongs to the owner of the
    task. *)
Definition refs_owned (d : Db) : Prop :=
  ∀ i t c, tasks d !! i = Some t → task_categoryId t = Some c →
    ∃ row, categories d !! c = Some row ∧ category_userId row = task_userId t.

(** What an operation of user [u] on store [d] does to the records of
    others. *)
Definition owner_scoped (now : Z) (u : string) (op : Op) (d : Db) : Prop :=
  let r := run now u op d in
  (∀ c, c ∈ log r.2 →
     reads_owner u c
     ∨ ∃ id row, op = DeleteCategory id ∧ c = TaskCount (in_category id)
                 ∧ categories d !! id = Some row ∧ category_userId row = u)
  ∧ others_untouched u d (db r.2)
  ∧ returns_own u (db r.2) (body r.1)
  ∧ (refs_owned d → includes_own u (db r.2) (body r.1) ∧ refs_owned (db r.2)).

(** Alice's category, with a task of Bob that refers to it. *)
Definition shared_db : Db :=
  mkDb {[ "t9" := mkTask "Plan" None None PENDING "bob" (Some "c1") 20 20 ]}
       {[ "c1" := mkCategory "Work" "#3B82F6" "alice" 5 5 ]}.


(** *** Lists of tasks *)

(** A task that a list request of user [u] selects: it belongs to [u], it
    has the status and the category of the query when they are given, and
    the search text, when given, is found in its title or in its
    description as the database finds it (whatever the case of the letters,
    and with [%] and [_] of the text standing for any text and any
    character). *)
Definition selected (u : string) (q : TaskQuery) (r : string * Task) : Prop :=
  task_userId r.2 = u
  ∧ from_option (λ s, status_name (task_status r.2) = s) True (when_truthy (q_status q))
  ∧ from_option (λ c, task_categoryId r.2 = Some c) True (when_truthy (q_categoryId q))
  ∧ from_option
      (λ s, contains_insensitive s (task_title r.2) = true
            ∨ from_option (λ x, contains_insensitive s x = true) False
                          (task_description r.2))
      True (when_truthy (q_search q)).

#[global] Instance selected_dec (u : string) (q : TaskQuery) (r : string * Task) :
  Decision (selected u q r).
Proof.
  unfold selected.
  destruct (when_truthy (q_status q)), (when_truthy (q_categoryId q)),
    (when_truthy (q_search q)), (task_description r.2); simpl; apply _.
Defined.

(** The total of a list response. *)
Definition page_total (r : Response) : option nat :=
  match body r with
  | TaskPage _ _ _ total _ => Some total
  | _ => None
  end.



(** *** Further specification *)

(** The operations that only read. *)
Definition is_read (op : Op) : bool :=
  match op with
  | GetTasks _ | GetTask _ | GetTaskStats | GetCategories | GetCategory _ => true
  | _ => false
  end.

(** The operations of routes/categories.ts. *)
Definition on_categories (op : Op) : bool :=
  match op with
  | GetCategories | GetCategory _ | CreateCategory _ _ | UpdateCategory _ _
  | DeleteCategory _ => true
  | _ => false
  end.

(** No two categories of one owner bear the same name. *)
Definition names_unique (d : Db) : Prop :=
  ∀ i j c c', categories d !! i = Some c → categories d !! j = Some c' →
    category_userId c = category_userId c' → category_name c = category_name c' →
    i = j.

(** The instant that the [dueDate] of an accepted body denotes. *)
Definition due_of (i : option DateInput) : option Z :=
  i ≫= λ x, match x with
            | DateIso z => Some z
            | _ => None
            end.


(** A body without a key. *)
Definition empty_body (b : TaskBody) : bool :=
  match b_title b, b_description b, b_dueDate b, b_status b, b_categoryId b with
  | None, None, None, None, None => true
  | _, _, _, _, _ => false
  end.

(** The row that an accepted update body makes of a task: a column whose key
    is absent from the body stays as it is, and the update time becomes
    the time of the call unless the body is empty. *)
Definition updated_task (now : Z) (b : TaskBody) (t : Task) : Task :=
  mkTask (default (task_title t) (b_title b))
         (from_option Some (task_description t) (b_description b))
         (from_option (λ i, due_of (Some i)) (task_dueDate t) (b_dueDate b))
         (default (task_status t) (b_status b ≫= parse_status))
         (task_userId t)
         (from_option Some (task_categoryId t) (b_categoryId b))
         (task_createdAt t)
         (if empty_body b then task_updatedAt t else now).


(** The list request with nothing but a status. *)
Definition status_query (s : option string) : TaskQuery :=
  mkTaskQuery None None s None None None None.

(** The tasks that refer to category [id]. *)
Definition refers_to (id : string) (r : string * Task) : Prop :=
  task_categoryId r.2 = Some id.

#[global] Instance refers_to_dec (id : string) (r : string * Task) :
  Decision (refers_to id r).
Proof. unfold refers_to. apply _. Defined.

(** The same list request with another search text. *)
Definition with_search (s : string) (q : TaskQuery) : TaskQuery :=
  mkTaskQuery (q_page q) (q_limit q) (q_status q) (q_categoryId q) (Some s)
              (q_sortBy q) (q_sortOrder q).


(** *** Users *)

(** No user has the email. *)
Definition email_free (email : string) (users : gmap string Auth.User) : Prop :=
  ∀ i a, users !! i = Some a → Auth.user_email a ≠ email.

(** No two users have the same email. *)
Definition emails_unique (users : gmap string Auth.User) : Prop :=
  ∀ i j a a', users !! i = Some a → users !! j = Some a' →
    Auth.user_email a = Auth.user_email a' → i = j.

(** Both secrets are set, and the two time spans of the configuration, or
    their defaults, are ones that [ms] reads. *)
Definition jwt_configured (ms : string → option Z) (env : gmap string string) : Prop :=
  JS.truthy (env !! "JWT_SECRET") = true
  ∧ JS.truthy (env !! "JWT_REFRESH_SECRET") = true
  ∧ is_Some (ms (JS.or_else (env !! "JWT_EXPIRE") "1h"))
  ∧ is_Some (ms (JS.or_else (env !! "JWT_REFRESH_EXPIRE") "7d")).

(** The row that a registration stores. *)
Definition registered (hash : string → string → string) (salt : string) (now : Z)
    (b : Auth.RegisterBody) : Auth.User :=
  Auth.mkUser (Auth.rb_email b) (Auth.rb_name b) (hash (Auth.rb_password b) salt) now now.

Definition user_exists : Auth.AuthResponse :=
  Auth.mkAuthResponse 400 (Auth.AuthMessage false "User already exists with this email").

#[global] Instance key_eq_dec : EqDecision key.
Proof. solve_decision. Defined.
(** * Properties *)

(** ** The model on concrete inputs *)

Example parseInt_page : JS.parseInt "2" = JS.Num 2.
Proof. reflexivity. Qed.

Example parseInt_prefix : JS.parseInt " -12px" = JS.Num (-12).
Proof. reflexivity. Qed.

Example parseInt_hex : JS.parseInt "0x1f" = JS.Num 31.
Proof. reflexivity. Qed.

Example parseInt_empty : JS.parseInt "" = JS.NaN.
Proof. reflexivity. Qed.

Example ceil_div_25_10 : JS.ceil_div 25 (JS.Num 10) = JS.Num 3.
Proof. reflexivity. Qed.

Example ceil_div_0_0 : JS.ceil_div 0 (JS.Num 0) = JS.NaN.
Proof. reflexivity. Qed.

(** Beyond 2^53 a number is rounded to a double. *)
Example parseInt_rounds :
  JS.parseInt "9007199254740993" = JS.Num 9007199254740992
  ∧ JS.parseInt "9007199254740995" = JS.Num 9007199254740996
  ∧ JS.parseInt "99999999999999999999" = JS.Num 100000000000000000000.
Proof. by vm_compute. Qed.

(** A search ignores case, on the title or the description, and reads [_]
    and [%] in the text as the database does. *)
Example search_wildcards :
  let q s := mkTaskQuery None None None None (Some s) None None in
  page_ids (run 0 "alice" (GetTasks (q "_")) sample_db).1 = ["t1"]
  ∧ page_ids (run 0 "alice" (GetTasks (q "b_y m%k")) sample_db).1 = ["t1"]
  ∧ page_ids (run 0 "alice" (GetTasks (q "b__y")) sample_db).1 = [].
Proof. by vm_compute. Qed.

Example search_milk :
  let q s := mkTaskQuery None None None None (Some s) None None in
  page_ids (run 0 "alice" (GetTasks (q "MILK")) sample_db).1 = ["t1"]
  ∧ page_ids (run 0 "alice" (GetTasks (q "bread")) sample_db).1 = []
  ∧ page_ids (run 0 "bob" (GetTasks (q "MONTH")) sample_db).1 = ["t2"].
Proof. by vm_compute. Qed.

(** A page before the first one makes the skip negative, which the client
    refuses. *)
Example page_zero :
  (run 0 "alice"
     (GetTasks (mkTaskQuery (Some "0") None None None None None None)) sample_db).1
  = mkResponse 500 InternalError.
Proof. by vm_compute. Qed.

(** A limit that is no 64-bit integer is refused by the client too. *)
Example limit_beyond_int64 :
  (run 0 "alice"
     (GetTasks (mkTaskQuery None (Some "99999999999999999999") None None None None None))
     sample_db).1
  = mkResponse 500 InternalError.
Proof. by vm_compute. Qed.

(** Sorted by [__proto__] the request carries no ordering, and no direction
    is looked at. *)
Example sort_by_proto :
  let q := mkTaskQuery None None None None None (Some "__proto__") (Some "sideways") in
  status (run 0 "alice" (GetTasks q) sample_db).1 = 200%Z
  ∧ log (run 0 "alice" (GetTasks q) sample_db).2
    = [TaskFindMany (mkTaskWhere None (Some "alice") None None None None) None
                    (JS.Num 0) (JS.Num 10);
       TaskCount (mkTaskWhere None (Some "alice") None None None None)].
Proof. by vm_compute. Qed.

(** An update without a key writes nothing. *)
Example empty_update :
  db (run 40 "alice" (UpdateTask "t1" (mkTaskBody None None None None None)) sample_db).2
  = sample_db.
Proof. by vm_compute. Qed.

Example sample_stats :
  (run 100 "alice" GetTaskStats sample_db).1 = mkResponse 200 (TaskStats 1 1 0 0 1).
Proof. by vm_compute. Qed.

Example ms_units_default : Jwt.ms_units "1h" = Some 3600000%Z ∧ Jwt.ms_units "7d" = Some 604800000%Z.
Proof. by vm_compute. Qed.

(** ** Lookups in a table *)

Lemma head_filter_None {A} (f : A → bool) (l : list A) :
  head (List.filter f l) = None ↔ ∀ x, x ∈ l → f x = false.
Proof.
  induction l as [|a l IH]; simpl.
  - split; [intros _ x Hx; inversion Hx | done].
  - destruct (f a) eqn:Ha; simpl.
    + split; [done | intros H; specialize (H a (list_elem_of_here _ _)); congruence].
    + rewrite IH. split.
      * intros H x Hx. apply elem_of_cons in Hx as [-> | Hx]; auto.
      * intros H x Hx. apply H. by apply list_elem_of_further.
Qed.

Lemma head_filter_Some {A} (f : A → bool) (l : list A) (x : A) :
  head (List.filter f l) = Some x → x ∈ l ∧ f x = true.
Proof.
  intros H.
  assert (In x (List.filter f l)) as Hin.
  { destruct (List.filter f l); simplify_eq/=. by left. }
  apply filter_In in Hin as [Hin ?]. by rewrite list_elem_of_In.
Qed.

(** At most one row of a table carries a given identifier, so a lookup that
    filters on the identifier is a lookup of the table at that key. *)
Lemma head_filter_key {A} (f : string * A → bool) (m : gmap string A) (id : string)
    (P : A → Prop) `{!∀ a, Decision (P a)} :
  (∀ i a, f (i, a) = true ↔ i = id ∧ P a) →
  head (List.filter f (map_to_list m))
  = a ← m !! id; if decide (P a) then Some (id, a) else None.
Proof.
  intros Hf.
  destruct (head (List.filter f (map_to_list m))) as [[i a]|] eqn:Hh.
  - apply head_filter_Some in Hh as [Hin Hfa].
    apply elem_of_map_to_list in Hin. apply Hf in Hfa as [-> HP].
    rewrite Hin. simpl. by rewrite decide_True.
  - rewrite head_filter_None in Hh.
    destruct (m !! id) as [a|] eqn:Hm; simpl; [|done].
    case_decide as HP; [|done].
    specialize (Hh (id, a)). rewrite elem_of_map_to_list in Hh.
    specialize (Hh Hm). assert (f (id, a) = true) by (apply Hf; done). congruence.
Qed.

Lemma task_by_id_matches (id u i : string) (t : Task) :
  task_matches (Tasks.task_by_id id u) (i, t) = true ↔ i = id ∧ task_userId t = u.
Proof.
  unfold task_matches, Tasks.task_by_id; simpl.
  rewrite !andb_true_r, andb_true_iff, !String.eqb_eq. naive_solver.
Qed.

Lemma category_by_id_matches (id u i : string) (c : Category) :
  category_matches (Categories.category_by_id id u) (i, c) = true
  ↔ i = id ∧ category_userId c = u.
Proof.
  unfold category_matches, Categories.category_by_id; simpl.
  rewrite !andb_true_r, andb_true_iff, !String.eqb_eq. naive_solver.
Qed.

Lemma task_findFirst_by_id (d : Db) (id u : string) :
  head (task_rows (Tasks.task_by_id id u) d)
  = t ← tasks d !! id; if decide (task_userId t = u) then Some (id, t) else None.
Proof. apply head_filter_key. intros. apply task_by_id_matches. Qed.

Lemma category_findFirst_by_id (d : Db) (id u : string) :
  head (category_rows (Categories.category_by_id id u) d)
  = c ← categories d !! id;
    if decide (category_userId c = u) then Some (id, c) else None.
Proof. apply head_filter_key. intros. apply category_by_id_matches. Qed.

Lemma task_findFirst_hidden (d : Db) (id u : string) :
  no_task_of u id d → head (task_rows (Tasks.task_by_id id u) d) = None.
Proof.
  intros H. rewrite task_findFirst_by_id.
  destruct (tasks d !! id) as [t|] eqn:Ht; simpl; [|done].
  rewrite decide_False; [done | by apply H].
Qed.

Lemma category_findFirst_hidden (d : Db) (id u : string) :
  no_category_of u id d → head (category_rows (Categories.category_by_id id u) d) = None.
Proof.
  intros H. rewrite category_findFirst_by_id.
  destruct (categories d !! id) as [c|] eqn:Hc; simpl; [|done].
  rewrite decide_False; [done | by apply H].
Qed.

Arguments task_rows : simpl never.
Arguments category_rows : simpl never.

(** Running a handler on a store unfolds to the calls it makes. *)
Ltac run_handler :=
  unfold run, route, asyncHandler, Validation.validate,
    Tasks.getTasks, Tasks.getTask, Tasks.createTask, Tasks.updateTask,
    Tasks.deleteTask, Tasks.getTaskStats,
    Categories.getCategories, Categories.getCategory, Categories.createCategory,
    Categories.updateCategory, Categories.deleteCategory,
    including,
    task_findFirst, task_findMany, task_count, task_create, task_update, task_delete,
    category_findFirst, category_findMany, category_create, category_update,
    category_delete, promise_all, bind, ret, query; simpl.

(** ** A record of another owner is a record that does not exist *)

(** C2: a get, update or delete of a task or a category by an identifier
    under which the user owns no record (there is none, or it belongs to
    someone else) makes the single lookup filtered by identifier and owner,
    answers 404 with the same message in both cases, and leaves the store as
    it was. *)
Theorem hidden_record_not_found (now : Z) (u tid cid : string) (d : Db)
    (tb : TaskBody) (cb : CategoryBody) :
  no_task_of u tid d →
  no_category_of u cid d →
  let task_404 :=
    (mkResponse 404 (Message false "Task not found"),
     mkWorld d [TaskFindFirst (mkTaskWhere (Some tid) (Some u) None None None None)]) in
  let category_404 :=
    (mkResponse 404 (Message false "Category not found"),
     mkWorld d [CategoryFindFirst (mkCategoryWhere (Some (Is cid)) (Some u) None)]) in
  asyncHandler (Tasks.getTask u tid) d = task_404
  ∧ asyncHandler (Tasks.updateTask now u tid tb) d = task_404
  ∧ asyncHandler (Tasks.deleteTask u tid) d = task_404
  ∧ asyncHandler (Categories.getCategory u cid) d = category_404
  ∧ asyncHandler (Categories.updateCategory now u cid cb) d = category_404
  ∧ asyncHandler (Categories.deleteCategory u cid) d = category_404.
Proof.
  intros Ht Hc.
  pose proof (task_findFirst_hidden d tid u Ht) as Et.
  pose proof (category_findFirst_hidden d cid u Hc) as Ec.
  repeat split; run_handler; rewrite ?Et, ?Ec; reflexivity.
Qed.

Lemma hidden_record_not_found_witness :
  no_task_of "bob" "t1" sample_db
  ∧ no_category_of "bob" "c9" sample_db
  ∧ asyncHandler (Tasks.getTask "bob" "t1") sample_db
    = (mkResponse 404 (Message false "Task not found"),
       mkWorld sample_db
         [TaskFindFirst (mkTaskWhere (Some "t1") (Some "bob") None None None None)])
  ∧ asyncHandler (Categories.deleteCategory "bob" "c9") sample_db
    = (mkResponse 404 (Message false "Category not found"),
       mkWorld sample_db
         [CategoryFindFirst (mkCategoryWhere (Some (Is "c9")) (Some "bob") None)]).
Proof.
  assert (no_task_of "bob" "t1" sample_db) as Ht.
  { intros t Ht. vm_compute in Ht. by simplify_eq. }
  assert (no_category_of "bob" "c9" sample_db) as Hc.
  { intros c Hc. vm_compute in Hc. by simplify_eq. }
  pose proof (hidden_record_not_found 0 "bob" "t1" "c9" sample_db
                (mkTaskBody None None None None None) (mkCategoryBody None None) Ht Hc)
    as (H1 & _ & _ & _ & _ & H6).
  exact (conj Ht (conj Hc (conj H1 H6))).
Defined.

(** ** The guard on deleting a category *)

Lemma filter_nil_iff {A} (f : A → bool) (l : list A) :
  List.filter f l = [] ↔ ∀ x, x ∈ l → f x = false.
Proof.
  rewrite <- head_filter_None. destruct (List.filter f l); naive_solver.
Qed.

Lemma in_category_matches (id i : string) (t : Task) :
  task_matches (in_category id) (i, t) = true ↔ task_categoryId t = Some id.
Proof.
  unfold task_matches, in_category; simpl.
  rewrite !andb_true_r. apply bool_decide_eq_true.
Qed.

Lemma no_tasks_in_category (d : Db) (id : string) :
  task_rows (in_category id) d = []
  ↔ ∀ i t, tasks d !! i = Some t → task_categoryId t ≠ Some id.
Proof.
  unfold task_rows. rewrite filter_nil_iff. split.
  - intros H i t Ht Hc. apply elem_of_map_to_list in Ht.
    apply H in Ht. apply (in_category_matches id i t) in Hc. congruence.
  - intros H [i t] Hin. apply elem_of_map_to_list in Hin.
    apply not_true_is_false. rewrite in_category_matches. eauto.
Qed.

Lemma set_null_unreferenced (d : Db) (id : string) :
  (∀ i t, tasks d !! i = Some t → task_categoryId t ≠ Some id) →
  set_null id <$> tasks d = tasks d.
Proof.
  intros H. apply map_eq. intros i. rewrite lookup_fmap.
  destruct (tasks d !! i) as [t|] eqn:Ht; simpl; [|done].
  unfold set_null. rewrite bool_decide_eq_false_2; eauto.
Qed.

(** C9: deleting a category that the user owns is refused with status 400
    while a task refers to it, and the store stays as it was; when no task
    refers to it the deletion succeeds and the category is gone, the tasks
    being untouched. *)
Theorem delete_category_guard (u id : string) (d : Db) (c : Category) :
  categories d !! id = Some c →
  category_userId c = u →
  let r := asyncHandler (Categories.deleteCategory u id) d in
  ((∃ i t, tasks d !! i = Some t ∧ task_categoryId t = Some id) →
     status r.1 = 400%Z
     ∧ (∃ text, body r.1 = Message false text)
     ∧ db r.2 = d)
  ∧ ((∀ i t, tasks d !! i = Some t → task_categoryId t ≠ Some id) →
     r.1 = mkResponse 200 (Message true "Category deleted successfully")
     ∧ db r.2 = mkDb (tasks d) (delete id (categories d))
     ∧ categories (db r.2) !! id = None).
Proof.
  intros Hc Hu r. subst r.
  run_handler. rewrite category_findFirst_by_id, Hc. simpl.
  rewrite decide_True by done. simpl.
  fold (in_category id).
  destruct (task_rows (in_category id) d) as [|x rows] eqn:Hrows; simpl.
  - rewrite Hc. simpl. pose proof (proj1 (no_tasks_in_category d id) Hrows) as Hno.
    clear Hrows. rename Hno into Hrows. split.
    + intros (i & t & Ht & Hid). by apply Hrows in Ht.
    + intros _. rewrite set_null_unreferenced by done.
      repeat split. apply lookup_delete_eq.
  - split.
    + intros _. eauto.
    + intros Hno. apply no_tasks_in_category in Hno. congruence.
Qed.

Lemma delete_category_guard_witness :
  categories sample_db !! "c1" = Some (mkCategory "Work" "#3B82F6" "alice" 5 5)
  ∧ status (asyncHandler (Categories.deleteCategory "alice" "c1") sample_db).1 = 400%Z
  ∧ db (asyncHandler (Categories.deleteCategory "alice" "c1") sample_db).2 = sample_db.
Proof.
  assert (categories sample_db !! "c1" = Some (mkCategory "Work" "#3B82F6" "alice" 5 5))
    as Hc by reflexivity.
  split; [exact Hc|].
  destruct (delete_category_guard "alice" "c1" sample_db _ Hc eq_refl) as [Hbusy _].
  destruct Hbusy as (Hs & _ & Hd).
  { exists "t1", (mkTask "Buy milk" None (Some 50%Z) PENDING "alice" (Some "c1") 10 10).
    split; reflexivity. }
  exact (conj Hs Hd).
Defined.

(** ** Category names are unique for an owner *)

Lemma category_findFirst_None (d : Db) (w : CategoryWhere) :
  head (category_rows w d) = None
  ↔ ∀ i c, categories d !! i = Some c → category_matches w (i, c) = false.
Proof.
  unfold category_rows. rewrite head_filter_None. split.
  - intros H i c Hc. apply H. by apply elem_of_map_to_list.
  - intros H [i c] Hin. apply H. by apply elem_of_map_to_list.
Qed.

Lemma category_findFirst_Some (d : Db) (w : CategoryWhere) (r : string * Category) :
  head (category_rows w d) = Some r
  → categories d !! r.1 = Some r.2 ∧ category_matches w r = true.
Proof.
  intros H. apply head_filter_Some in H as [Hin ?]. destruct r as [i c].
  by apply elem_of_map_to_list in Hin.
Qed.

Lemma named_matches (u n i : string) (c : Category) :
  category_matches (mkCategoryWhere None (Some u) (Some n)) (i, c) = true
  ↔ category_userId c = u ∧ category_name c = n.
Proof.
  unfold category_matches; simpl. rewrite andb_true_iff, !String.eqb_eq. done.
Qed.

Lemma other_named_matches (id u n i : string) (c : Category) :
  category_matches (mkCategoryWhere (Some (Not id)) (Some u) (Some n)) (i, c) = true
  ↔ i ≠ id ∧ category_userId c = u ∧ category_name c = n.
Proof.
  unfold category_matches; simpl.
  rewrite !andb_true_iff, negb_true_iff, !String.eqb_eq, String.eqb_neq. tauto.
Qed.

(** Creation: when user [u] already owns a category named [n], a creation
    of [n] by [u] is refused with the conflict message and nothing is
    created, while a creation of [n] by a user [v] who owns no category of
    that name succeeds and stores a category of [v]. *)
Lemma create_category_name_per_owner (now : Z) (u v n cuid : string) (d : Db)
    (b : CategoryBody) :
  b_name b = Some n →
  (∃ i c, categories d !! i = Some c ∧ category_userId c = u ∧ category_name c = n) →
  (∀ i c, categories d !! i = Some c → category_userId c = v → category_name c ≠ n) →
  categories d !! cuid = None →
  let by_u := asyncHandler (Categories.createCategory cuid now u b) d in
  let by_v := asyncHandler (Categories.createCategory cuid now v b) d in
  by_u.1 = mkResponse 400 (Message false "Category with this name already exists")
  ∧ db by_u.2 = d
  ∧ status by_v.1 = 201%Z
  ∧ db by_v.2
    = mkDb (tasks d)
           (<[cuid := mkCategory n (JS.or_else (b_color b) "#3B82F6") v now now]>
              (categories d)).
Proof.
  intros Hn (i & c & Hc & Hu & Hcn) Hv Hfresh by_u by_v. subst by_u by_v.
  run_handler. rewrite Hn.
  destruct (head (category_rows (mkCategoryWhere None (Some u) (Some n)) d))
    as [r|] eqn:Eu.
  2:{ rewrite category_findFirst_None in Eu. specialize (Eu i c Hc).
      assert (category_matches (mkCategoryWhere None (Some u) (Some n)) (i, c) = true)
        by (by apply named_matches).
      congruence. }
  destruct (head (category_rows (mkCategoryWhere None (Some v) (Some n)) d))
    as [[j c']|] eqn:Ev.
  { apply category_findFirst_Some in Ev as [Hj Hm]. simpl in Hj.
    apply named_matches in Hm as [Hov Hnv]. by apply Hv in Hj. }
  simpl. rewrite Hfresh. simpl. done.
Qed.

(** Update: the new name is refused exactly when it is a non-empty name,
    differs from the present one, and another category of the same owner
    bears it; otherwise the update goes through. *)
Lemma update_category_name_conflict (now : Z) (u id : string) (d : Db) (c : Category)
    (b : CategoryBody) :
  categories d !! id = Some c →
  category_userId c = u →
  let r := asyncHandler (Categories.updateCategory now u id b) d in
  let taken :=
    ∃ n j c', b_name b = Some n ∧ n ≠ "" ∧ n ≠ category_name c ∧ j ≠ id
              ∧ categories d !! j = Some c' ∧ category_userId c' = u
              ∧ category_name c' = n in
  (taken →
     r.1 = mkResponse 400 (Message false "Category with this name already exists")
     ∧ db r.2 = d)
  ∧ (¬ taken →
     status r.1 = 200%Z
     ∧ db r.2
       = mkDb (tasks d)
              (<[id := patch_category now
                         (mkCategoryUpdate (when_truthy (b_name b))
                                           (when_truthy (b_color b))) c]>
                 (categories d))).
Proof.
  intros Hc Hu r taken. subst r.
  run_handler. rewrite category_findFirst_by_id, Hc. simpl.
  rewrite decide_True by done. simpl.
  destruct (b_name b) as [n|] eqn:Hn; simpl.
  2:{ rewrite Hc. simpl. split; [|done]. intros (n & j & c' & ? & _). done. }
  destruct (String.eqb_spec n ""); simpl.
  { rewrite Hc. simpl. split; [|done]. intros (n' & j & c' & ? & ? & _). congruence. }
  destruct (bool_decide_reflect (Some n = Some (category_name c))) as [E|E]; simpl.
  { rewrite Hc. simpl. split; [|done].
    intros (n' & j & c' & ? & ? & ? & _). congruence. }
  destruct (head (category_rows (mkCategoryWhere (Some (Not id)) (Some u) (Some n)) d))
    as [[j c']|] eqn:Ej; simpl.
  - apply category_findFirst_Some in Ej as [Hj Hm]. simpl in Hj.
    apply other_named_matches in Hm as (? & ? & ?).
    split; [done|]. intros Hno. exfalso. apply Hno.
    exists n, j, c'. repeat split; try done. congruence.
  - rewrite Hc. simpl. split; [|done].
    intros (n' & j & c' & ? & ? & ? & ? & Hj & ? & ?).
    rewrite category_findFirst_None in Ej. specialize (Ej j c' Hj).
    assert (category_matches (mkCategoryWhere (Some (Not id)) (Some u) (Some n)) (j, c')
            = true) as Hm by (apply other_named_matches; repeat split; congruence).
    congruence.
Qed.

(** A fact about every row of a concrete table, by enumeration. *)
Ltac each_row H :=
  rewrite <- elem_of_map_to_list in H; vm_compute in H;
  repeat (apply elem_of_cons in H as [H|H]; [simplify_eq; try done|]);
  try (by apply elem_of_nil in H).

(** C8: category names are unique for an owner and not across owners. A
    creation under a name that the user already uses is refused with the
    conflict message and creates nothing, while the same name is accepted
    for another user who does not use it; an update is refused exactly when
    the new name is non-empty, differs from the present one and is borne by
    another category of the same owner. *)
Theorem category_name_unique_per_owner :
  (∀ (now : Z) (u v n cuid : string) (d : Db) (b : CategoryBody),
     b_name b = Some n →
     (∃ i c, categories d !! i = Some c ∧ category_userId c = u ∧ category_name c = n) →
     (∀ i c, categories d !! i = Some c → category_userId c = v → category_name c ≠ n) →
     categories d !! cuid = None →
     let by_u := asyncHandler (Categories.createCategory cuid now u b) d in
     let by_v := asyncHandler (Categories.createCategory cuid now v b) d in
     by_u.1 = mkResponse 400 (Message false "Category with this name already exists")
     ∧ db by_u.2 = d
     ∧ status by_v.1 = 201%Z
     ∧ db by_v.2
       = mkDb (tasks d)
              (<[cuid := mkCategory n (JS.or_else (b_color b) "#3B82F6") v now now]>
                 (categories d)))
  ∧ (∀ (now : Z) (u id : string) (d : Db) (c : Category) (b : CategoryBody),
       categories d !! id = Some c →
       category_userId c = u →
       let r := asyncHandler (Categories.updateCategory now u id b) d in
       let taken :=
         ∃ n j c', b_name b = Some n ∧ n ≠ "" ∧ n ≠ category_name c ∧ j ≠ id
                   ∧ categories d !! j = Some c' ∧ category_userId c' = u
                   ∧ category_name c' = n in
       (taken →
          r.1 = mkResponse 400 (Message false "Category with this name already exists")
          ∧ db r.2 = d)
       ∧ (¬ taken →
          status r.1 = 200%Z
          ∧ db r.2
            = mkDb (tasks d)
                   (<[id := patch_category now
                              (mkCategoryUpdate (when_truthy (b_name b))
                                                (when_truthy (b_color b))) c]>
                      (categories d)))).
Proof.
  split.
  - intros. by apply create_category_name_per_owner.
  - intros. by apply update_category_name_conflict.
Qed.

Lemma category_name_unique_per_owner_witness :
  let b := mkCategoryBody (Some "Work") None in
  let by_alice := asyncHandler (Categories.createCategory "c3" 7 "alice" b) sample_db in
  let by_bob := asyncHandler (Categories.createCategory "c3" 7 "bob" b) sample_db in
  let rename := asyncHandler (Categories.updateCategory 7 "alice" "c2" b) sample_db in
  categories sample_db !! "c1" = Some (mkCategory "Work" "#3B82F6" "alice" 5 5)
  ∧ categories sample_db !! "c3" = None
  ∧ status by_alice.1 = 400%Z
  ∧ db by_alice.2 = sample_db
  ∧ status by_bob.1 = 201%Z
  ∧ categories (db by_bob.2) !! "c3" = Some (mkCategory "Work" "#3B82F6" "bob" 7 7)
  ∧ status rename.1 = 400%Z
  ∧ db rename.2 = sample_db.
Proof.
  intros b by_alice by_bob rename.
  assert (categories sample_db !! "c1" = Some (mkCategory "Work" "#3B82F6" "alice" 5 5))
    as Hc1 by reflexivity.
  assert (categories sample_db !! "c3" = None) as Hc3 by reflexivity.
  destruct (proj1 category_name_unique_per_owner 7%Z "alice" "bob" "Work" "c3"
              sample_db b eq_refl) as (Ha & Hda & Hb & Hdb); [| |exact Hc3|].
  { by exists "c1", (mkCategory "Work" "#3B82F6" "alice" 5 5). }
  { intros i c H. each_row H. }
  destruct (proj2 category_name_unique_per_owner 7%Z "alice" "c2" sample_db
              (mkCategory "Home" "#10B981" "alice" 6 6) b eq_refl eq_refl)
    as [Htaken _].
  destruct Htaken as [Hr Hdr].
  { exists "Work", "c1", (mkCategory "Work" "#3B82F6" "alice" 5 5).
    by repeat split. }
  subst by_alice by_bob rename. rewrite Ha, Hr, Hda, Hdb, Hdr.
  repeat split; done.
Defined.

(** ** Tokens *)

(** C5: with the access secret configured and an expiry setting that
    denotes a time span, an access token issued for user [u] at time [clock]
    is accepted at every time before its expiry (in particular right after
    issuance), and the payload that the verification returns carries [u]. *)
Theorem verify_issued_access_token (ms : string → option Z) (env : gmap string string)
    (clock clock' span : Z) (u secret : string) :
  env !! "JWT_SECRET" = Some secret →
  secret ≠ "" →
  ms (JS.or_else (env !! "JWT_EXPIRE") "1h") = Some span →
  (clock' < clock + span / 1000)%Z →
  ∃ token payload,
    Jwt.generateAccessToken ms env clock u = Jwt.Ok token
    ∧ Jwt.verifyAccessToken env clock' token = Jwt.Ok payload
    ∧ Jwt.jp_id payload = u.
Proof.
  intros Hs Hne Hms Hlt.
  unfold Jwt.generateAccessToken, Jwt.verifyAccessToken, Jwt.sign, Jwt.verify.
  rewrite Hs. simpl. apply String.eqb_neq in Hne. rewrite Hne. simpl.
  rewrite Hms. eexists _, _. split; [reflexivity|].
  cbn. rewrite String.eqb_refl. cbn.
  destruct (Z.leb_spec (clock + span / 1000) clock'); [lia|]. done.
Qed.

Lemma verify_issued_access_token_witness :
  let env : gmap string string := {[ "JWT_SECRET" := "s3cret" ]} in
  env !! "JWT_SECRET" = Some "s3cret"
  ∧ Jwt.ms_units (JS.or_else (env !! "JWT_EXPIRE") "1h") = Some 3600000%Z
  ∧ ∃ token payload,
      Jwt.generateAccessToken Jwt.ms_units env 1700000000 "user-1" = Jwt.Ok token
      ∧ Jwt.verifyAccessToken env 1700000000 token = Jwt.Ok payload
      ∧ Jwt.jp_id payload = "user-1".
Proof.
  intros env.
  assert (env !! "JWT_SECRET" = Some "s3cret") as Hs by reflexivity.
  assert (Jwt.ms_units (JS.or_else (env !! "JWT_EXPIRE") "1h") = Some 3600000%Z)
    as Hms by reflexivity.
  split; [exact Hs|]. split; [exact Hms|].
  apply (verify_issued_access_token Jwt.ms_units env 1700000000 1700000000 3600000
           "user-1" "s3cret" Hs); [done | exact Hms | reflexivity].
Defined.

(** A process without any secret starts listening, and the first issuance
    of a token then raises the error about the missing secret. *)
Lemma missing_secret_counterexample :
  Server.startServer ∅ true = Server.Listening "3000"
  ∧ Jwt.generateAccessToken Jwt.ms_units ∅ 1700000000 "user-1"
    = Jwt.Err "JWT_SECRET environment variable is not set"
  ∧ Jwt.verifyAccessToken ∅ 1700000000 (Jwt.Malformed "x")
    = Jwt.Err "JWT_SECRET environment variable is not set".
Proof. repeat split. Qed.

(** C4, as the code has it: the start of the server does not look at the
    signing secrets (it listens whenever the database connects, and exits
    with code 1 otherwise), and a secret that is absent or empty is reported
    by each issuance and each verification, at the time of the call, as an
    error that names the variable. *)
Theorem missing_secret_is_per_request (ms : string → option Z)
    (env : gmap string string) (clock : Z) (u : string) (token : Jwt.Token) :
  Server.startServer env true = Server.Listening (JS.or_else (env !! "PORT") "3000")
  ∧ Server.startServer env false = Server.Exited 1
  ∧ (∀ connected,
       Server.startServer (delete "JWT_SECRET" (delete "JWT_REFRESH_SECRET" env)) connected
       = Server.startServer env connected)
  ∧ (JS.truthy (env !! "JWT_SECRET") = false →
       Jwt.generateAccessToken ms env clock u
       = Jwt.Err "JWT_SECRET environment variable is not set"
       ∧ Jwt.verifyAccessToken env clock token
         = Jwt.Err "JWT_SECRET environment variable is not set")
  ∧ (JS.truthy (env !! "JWT_REFRESH_SECRET") = false →
       Jwt.generateRefreshToken ms env clock u
       = Jwt.Err "JWT_REFRESH_SECRET environment variable is not set"
       ∧ Jwt.verifyRefreshToken env clock token
         = Jwt.Err "JWT_REFRESH_SECRET environment variable is not set").
Proof.
  split; [done|]. split; [done|]. split; [|split].
  - intros connected. unfold Server.startServer.
    by rewrite !lookup_delete_ne.
  - intros H. unfold Jwt.generateAccessToken, Jwt.verifyAccessToken.
    by rewrite H.
  - intros H. unfold Jwt.generateRefreshToken, Jwt.verifyRefreshToken.
    by rewrite H.
Qed.

Lemma missing_secret_is_per_request_witness :
  JS.truthy ((∅ : gmap string string) !! "JWT_SECRET") = false
  ∧ Server.startServer ∅ true = Server.Listening "3000"
  ∧ Jwt.generateAccessToken Jwt.ms_units ∅ 1700000000 "user-1"
    = Jwt.Err "JWT_SECRET environment variable is not set".
Proof.
  assert (JS.truthy ((∅ : gmap string string) !! "JWT_SECRET") = false) as H
    by reflexivity.
  destruct (missing_secret_is_per_request Jwt.ms_units ∅ 1700000000 "user-1"
              (Jwt.Malformed "x")) as (Hs & _ & _ & Ha & _).
  destruct (Ha H) as [Hg _].
  exact (conj H (conj Hs Hg)).
Defined.

(** ** Statistics *)

Lemma List_filter_decide {A} (f : A → bool) (P : A → Prop) `{!∀ x, Decision (P x)}
    (l : list A) :
  (∀ x, f x = true ↔ P x) → List.filter f l = filter P l.
Proof.
  intros Hf. induction l as [|a l IH]; [done|].
  simpl. rewrite filter_cons, IH.
  destruct (f a) eqn:Ha; case_decide as HP; try done.
  - apply Hf in Ha. done.
  - apply Hf in HP. congruence.
Qed.

(** Counting the rows that a filter keeps is taking the size of the table
    restricted to the property that the filter decides. *)
Lemma count_rows {A} (f : string * A → bool) (P : string * A → Prop)
    `{!∀ x, Decision (P x)} (m : gmap string A) :
  (∀ x, f x = true ↔ P x) →
  length (List.filter f (map_to_list m)) = size (filter P m).
Proof.
  intros Hf. rewrite (List_filter_decide f P) by done.
  rewrite map_filter_alt, map_size_list_to_map; [done|].
  eapply sublist_NoDup; [apply (NoDup_fst_map_to_list m)|].
  apply fmap_sublist, sublist_filter.
Qed.

Lemma overdue_matches (now : Z) (u i : string) (t : Task) :
  task_matches (mkTaskWhere None (Some u) (Some (NotIn ["COMPLETED"; "CANCELLED"]))
                            None (Some now) None) (i, t) = true
  ↔ task_userId t = u ∧ overdue now t.
Proof.
  unfold task_matches, overdue; simpl.
  rewrite !andb_true_r, !andb_true_iff, String.eqb_eq, negb_true_iff.
  destruct (task_dueDate t) as [due|]; [rewrite Z.ltb_lt|];
    destruct (task_status t); simpl; naive_solver.
Qed.

Lemma overdue_stats (now : Z) (u : string) (d : Db) :
  overdueTasks (run now u GetTaskStats d).1
  = Some (size (filter (λ r, task_userId r.2 = u ∧ overdue now r.2) (tasks d))).
Proof.
  run_handler. unfold overdueTasks; simpl. f_equal.
  unfold task_rows. apply count_rows. intros [i t]. apply overdue_matches.
Qed.

(** C7: the overdue count of the statistics is the number of tasks of the
    user whose due time is strictly before the current time and whose status
    is neither COMPLETED nor CANCELLED. Adding a task of the user that was
    due in the past raises the count by one when the task is PENDING and
    leaves it as it was when the task is COMPLETED. *)
Theorem overdue_counts_open_past_due (now : Z) (u : string) (d : Db) :
  overdueTasks (run now u GetTaskStats d).1
  = Some (size (filter (λ r, task_userId r.2 = u ∧ overdue now r.2) (tasks d)))
  ∧ ∀ (i title : string) (due created : Z),
      tasks d !! i = None →
      (due < now)%Z →
      let task st := mkTask title None (Some due) st u None created created in
      overdueTasks (run now u GetTaskStats (add_task i (task PENDING) d)).1
      = S <$> overdueTasks (run now u GetTaskStats d).1
      ∧ overdueTasks (run now u GetTaskStats (add_task i (task COMPLETED) d)).1
        = overdueTasks (run now u GetTaskStats d).1.
Proof.
  split; [apply overdue_stats|].
  intros i title due created Hfresh Hdue task.
  rewrite !overdue_stats. unfold add_task; simpl. split.
  - rewrite map_filter_insert_True.
    + rewrite map_size_insert_None; [done|].
      apply map_lookup_filter_None. by left.
    + unfold overdue; simpl. done.
  - rewrite map_filter_insert_not'; [done| |].
    + unfold overdue; simpl. naive_solver.
    + intros y Hy. congruence.
Qed.

Lemma overdue_counts_open_past_due_witness :
  tasks sample_db !! "t3" = None
  ∧ overdueTasks (run 100 "alice" GetTaskStats sample_db).1 = Some 1
  ∧ overdueTasks
      (run 100 "alice" GetTaskStats
         (add_task "t3" (mkTask "Call home" None (Some 70%Z) PENDING "alice" None 30 30)
                   sample_db)).1 = Some 2
  ∧ overdueTasks
      (run 100 "alice" GetTaskStats
         (add_task "t3" (mkTask "Call home" None (Some 70%Z) COMPLETED "alice" None 30 30)
                   sample_db)).1 = Some 1.
Proof.
  assert (tasks sample_db !! "t3" = None) as Hfresh by reflexivity.
  assert (70 < 100)%Z as Hdue by reflexivity.
  destruct (overdue_counts_open_past_due 100 "alice" sample_db) as [_ Hadd].
  destruct (Hadd "t3" "Call home" 70%Z 30%Z Hfresh Hdue) as [Hp Hc].
  assert (overdueTasks (run 100 "alice" GetTaskStats sample_db).1 = Some 1) as H1
    by (vm_compute; reflexivity).
  rewrite H1 in Hp, Hc.
  exact (conj Hfresh (conj H1 (conj Hp Hc))).
Defined.

Lemma status_partition (u : string) (l : list (string * Task)) :
  length (List.filter (task_matches (mkTaskWhere None (Some u) None None None None)) l)
  = length (List.filter (task_matches (Tasks.with_status u "PENDING")) l)
    + length (List.filter (task_matches (Tasks.with_status u "IN_PROGRESS")) l)
    + length (List.filter (task_matches (Tasks.with_status u "COMPLETED")) l)
    + length (List.filter (task_matches (Tasks.with_status u "CANCELLED")) l).
Proof.
  induction l as [|[i t] l IH]; [done|].
  unfold task_matches, Tasks.with_status in *; simpl in *.
  destruct (String.eqb (task_userId t) u), (task_status t); simpl; lia.
Qed.

Lemma cancelled_matches (u i : string) (t : Task) :
  task_matches (Tasks.with_status u "CANCELLED") (i, t) = true
  ↔ task_userId t = u ∧ task_status t = CANCELLED.
Proof.
  unfold task_matches, Tasks.with_status; simpl.
  rewrite !andb_true_r, andb_true_iff, String.eqb_eq.
  destruct (task_status t); simpl; naive_solver.
Qed.

(** C10: for every user and every store, the statistics satisfy
    pendingTasks + inProgressTasks + completedTasks <= totalTasks, and the
    two sides are equal exactly when the user has no CANCELLED task. *)
Theorem stats_status_counts_bounded (now : Z) (u : string) (d : Db) :
  ∃ total pending inProgress completed overdueCount,
    (run now u GetTaskStats d).1
    = mkResponse 200 (TaskStats total pending inProgress completed overdueCount)
    ∧ (pending + inProgress + completed ≤ total)%nat
    ∧ ((pending + inProgress + completed)%nat = total
       ↔ ¬ ∃ i t, tasks d !! i = Some t ∧ task_userId t = u
                  ∧ task_status t = CANCELLED).
Proof.
  run_handler. eexists _, _, _, _, _. split; [reflexivity|].
  unfold task_rows. rewrite (status_partition u).
  split; [lia|].
  set (cancelled := List.filter (task_matches (Tasks.with_status u "CANCELLED"))
                      (map_to_list (tasks d))).
  assert (cancelled = [] ↔ ¬ ∃ i t, tasks d !! i = Some t ∧ task_userId t = u
                                    ∧ task_status t = CANCELLED) as Hc.
  { unfold cancelled. rewrite filter_nil_iff. split.
    - intros H (i & t & Ht & Hu & Hs). apply elem_of_map_to_list in Ht.
      apply H in Ht. assert (task_matches (Tasks.with_status u "CANCELLED") (i, t) = true)
        by (by apply cancelled_matches). congruence.
    - intros H [i t] Hin. apply elem_of_map_to_list in Hin.
      apply not_true_is_false. rewrite cancelled_matches. naive_solver. }
  rewrite <- Hc. destruct cancelled; simpl; split; intros; try done; lia.
Qed.

(** ** Ordering and pagination *)

Lemma insert_by_perm {A} (le : A → A → bool) (x : A) (l : list A) :
  insert_by le x l ≡ₚ x :: l.
Proof.
  induction l as [|y l IH]; simpl; [done|].
  destruct (le x y); [done|]. rewrite IH. apply perm_swap.
Qed.

Lemma sort_by_perm {A} (le : A → A → bool) (l : list A) : sort_by le l ≡ₚ l.
Proof.
  induction l as [|x l IH]; simpl; [done|].
  rewrite insert_by_perm. by f_equiv.
Qed.

Lemma insert_by_sorted {A} (le : A → A → bool) (x : A) (l : list A) :
  (∀ a b, le a b = true ∨ le b a = true) →
  Sorted (λ a b, le a b = true) l →
  Sorted (λ a b, le a b = true) (insert_by le x l).
Proof.
  intros Htot. induction 1 as [|y l Hl IH Hhd]; simpl.
  - repeat constructor.
  - destruct (le x y) eqn:Hxy.
    + constructor; [by constructor | by constructor].
    + constructor; [done|].
      assert (le y x = true) as Hyx by (destruct (Htot x y); congruence).
      destruct Hhd as [|z l Hyz]; simpl; [by constructor|].
      destruct (le x z); by constructor.
Qed.

Lemma sort_by_sorted {A} (le : A → A → bool) (l : list A) :
  (∀ a b, le a b = true ∨ le b a = true) →
  Sorted (λ a b, le a b = true) (sort_by le l).
Proof.
  intros Htot. induction l as [|x l IH]; simpl; [constructor|].
  by apply insert_by_sorted.
Qed.




(** An integer below 2^53 is a double. *)
Lemma to_double_exact (z : Z) : (0 ≤ z < 2 ^ 53)%Z → JS.to_double z = JS.Num z.
Proof.
  intros H. unfold JS.to_double. rewrite Z.abs_eq by lia.
  destruct (Z.ltb_spec z (2 ^ 53)); [done|lia].
Qed.

Lemma int64_below (z : Z) : (0 ≤ z ≤ 2 ^ 53)%Z → int64 z = true.
Proof.
  intros H. unfold int64.
  assert (2 ^ 53 < 2 ^ 63)%Z by done.
  apply andb_true_iff. rewrite Z.leb_le, Z.ltb_lt. lia.
Qed.

(** The one name for which [orderBy] stays empty is no column. *)
Lemma column_is_a_key (f : string) (col : string * Task → key) :
  task_column f = Some col → Tasks.order_by f = λ o, Some (f, o).
Proof.
  intros H. unfold Tasks.order_by.
  destruct (String.eqb_spec f "__proto__") as [->|]; [|done].
  vm_compute in H. discriminate.
Qed.


Lemma rows_of_table {A} (f : string * A → bool) (P : string * A → Prop)
    `{!∀ x, Decision (P x)} (m : gmap string A) :
  (∀ x, f x = true ↔ P x) →
  List.filter f (map_to_list m) ≡ₚ map_to_list (filter P m).
Proof.
  intros Hf. rewrite (List_filter_decide f P) by done.
  rewrite map_filter_alt. symmetry. apply map_to_list_to_map.
  eapply sublist_NoDup; [apply (NoDup_fst_map_to_list m)|].
  apply fmap_sublist, sublist_filter.
Qed.

Lemma Sorted_weaken {A} (R R' : A → A → Prop) (l : list A) :
  (∀ a b, R a b → R' a b) → Sorted R l → Sorted R' l.
Proof.
  intros HR. induction 1 as [|x l Hl IH Hhd]; constructor; [done|].
  destruct Hhd; constructor; auto.
Qed.






Lemma window_subset {A} (skip take_ : Z) (l : list A) (x : A) :
  x ∈ window skip take_ l → x ∈ l.
Proof.
  unfold window. destruct (0 <=? take_)%Z; intros H.
  - by apply subseteq_take, subseteq_drop in H.
  - apply list_elem_of_In, in_rev, list_elem_of_In in H.
    apply subseteq_take, subseteq_drop in H.
    by apply list_elem_of_In, in_rev, list_elem_of_In in H.
Qed.

Lemma sort_by_subset {A} (le : A → A → bool) (l : list A) (x : A) :
  x ∈ sort_by le l → x ∈ l.
Proof. by rewrite sort_by_perm. Qed.

Lemma task_order_perm (orderBy : option (string * string))
    (order : list (string * Task) → list (string * Task)) (l : list (string * Task)) :
  task_order orderBy = Some order → order l ≡ₚ l.
Proof.
  unfold task_order. destruct orderBy as [[f o]|]; [|by intros [= <-]].
  destruct (task_column f), (direction o); try done.
  intros [= <-]. apply sort_by_perm.
Qed.

Lemma task_rows_in_views (d : Db) (rows : list (string * Task)) :
  (λ v, (tv_id v, tv_task v)) <$> (task_view d <$> rows) = rows.
Proof.
  rewrite <- list_fmap_compose. rewrite <- (list_fmap_id rows) at 2.
  apply list_fmap_ext. by intros _ [i t] _.
Qed.

(** Whatever the query, a list request makes its two calls, writes nothing,
    and is answered with status 500 or with rows that its [where] keeps and
    the number of all the rows that it keeps. *)
Lemma getTasks_outcome (now : Z) (u : string) (q : TaskQuery) (d : Db) :
  let sortBy := default "createdAt" (q_sortBy q) in
  let sortOrder := default "desc" (q_sortOrder q) in
  let pageNum := JS.parseInt (default "1" (q_page q)) in
  let limitNum := JS.parseInt (default "10" (q_limit q)) in
  let skip := JS.mul (JS.sub pageNum (JS.Num 1)) limitNum in
  let w := Tasks.tasks_where u q in
  let r := run now u (GetTasks q) d in
  r.2 = mkWorld d [TaskFindMany w (Tasks.order_by sortBy sortOrder) skip limitNum;
                   TaskCount w]
  ∧ (r.1 = mkResponse 500 InternalError
     ∨ ∃ rows pages,
         r.1 = mkResponse 200 (TaskPage (task_view d <$> rows) pageNum limitNum
                                        (length (task_rows w d)) pages)
         ∧ ∀ x, x ∈ rows → x ∈ task_rows w d).
Proof.
  intros sortBy sortOrder pageNum limitNum skip w r.
  subst r. run_handler. fold sortBy sortOrder pageNum limitNum. fold skip. fold w.
  destruct (task_where_ok w); [|by split; [|left]].
  destruct (task_order (Tasks.order_by sortBy sortOrder)) as [order|] eqn:Ho;
    [|by split; [|left]].
  destruct skip as [s| |]; try (by split; [|left]).
  destruct limitNum as [l| |]; try (by split; [|left]).
  destruct (_ && _)%bool; simpl; [|by split; [|left]].
  split; [done|]. right. eexists _, _. split; [reflexivity|].
  intros x Hx. apply window_subset in Hx.
  by rewrite (task_order_perm _ _ _ Ho) in Hx.
Qed.

(** A list request with a page and a limit that are positive integers
    within the range of exact doubles, a status filter of the enumeration,
    and a sort field and direction that the client accepts, is answered
    with the window of the ordered matching rows. *)
Lemma getTasks_page (now : Z) (u : string) (q : TaskQuery) (d : Db) (p l : Z)
    (col : string * Task → key) (le : key → key → bool) :
  JS.parseInt (default "1" (q_page q)) = JS.Num p →
  (1 ≤ p)%Z →
  JS.parseInt (default "10" (q_limit q)) = JS.Num l →
  (1 ≤ l)%Z →
  (p * l ≤ 2 ^ 53)%Z →
  task_where_ok (Tasks.tasks_where u q) = true →
  task_column (default "createdAt" (q_sortBy q)) = Some col →
  direction (default "desc" (q_sortOrder q)) = Some le →
  run now u (GetTasks q) d
  = (mkResponse 200
       (TaskPage
          (task_view d <$>
             take (Z.to_nat l)
               (drop (Z.to_nat ((p - 1) * l))
                  (sort_by (λ a b, le (col a) (col b))
                     (task_rows (Tasks.tasks_where u q) d))))
          (JS.Num p) (JS.Num l)
          (length (task_rows (Tasks.tasks_where u q) d))
          (JS.Num (- (- Z.of_nat (length (task_rows (Tasks.tasks_where u q) d)) / l)))),
     mkWorld d
       [TaskFindMany (Tasks.tasks_where u q)
          (Some (default "createdAt" (q_sortBy q), default "desc" (q_sortOrder q)))
          (JS.Num ((p - 1) * l)) (JS.Num l);
        TaskCount (Tasks.tasks_where u q)]).
Proof.
  intros Hp Hp1 Hl Hl1 Hpl Hok Hcol Hdir.
  assert (JS.to_double (p - 1) = JS.Num (p - 1)) as Hsub
    by (apply to_double_exact; nia).
  assert (JS.to_double ((p - 1) * l) = JS.Num ((p - 1) * l)) as Hmul
    by (apply to_double_exact; nia).
  run_handler. rewrite Hp, Hl, (column_is_a_key _ _ Hcol). simpl.
  rewrite Hsub. simpl. rewrite Hmul, Hok, Hcol, Hdir. simpl.
  rewrite !int64_below by nia.
  destruct (Z.leb_spec 0 ((p - 1) * l)); [|nia]. simpl.
  unfold window. destruct (Z.leb_spec 0 l); [|lia].
  unfold JS.ceil_div. destruct (Z.eqb_spec l 0); [lia|]. done.
Qed.



(** ** The sort field *)




(** ** Owner scoping *)

Lemma elem_of_option_list {A} (o : option A) (x : A) :
  x ∈ option_list o ↔ o = Some x.
Proof.
  destruct o as [a|]; simpl.
  - rewrite list_elem_of_singleton. naive_solver.
  - rewrite elem_of_nil. naive_solver.
Qed.

Lemma others_untouched_refl (u : string) (d : Db) : others_untouched u d d.
Proof. by split. Qed.

Lemma task_rows_spec (w : TaskWhere) (d : Db) (r : string * Task) :
  r ∈ task_rows w d ↔ tasks d !! r.1 = Some r.2 ∧ task_matches w r = true.
Proof.
  unfold task_rows. rewrite list_elem_of_In, filter_In, <- list_elem_of_In.
  destruct r as [i t]. by rewrite elem_of_map_to_list.
Qed.

Lemma category_rows_spec (w : CategoryWhere) (d : Db) (r : string * Category) :
  r ∈ category_rows w d ↔ categories d !! r.1 = Some r.2 ∧ category_matches w r = true.
Proof.
  unfold category_rows. rewrite list_elem_of_In, filter_In, <- list_elem_of_In.
  destruct r as [i c]. by rewrite elem_of_map_to_list.
Qed.

Lemma task_matches_owner (w : TaskWhere) (u : string) (r : string * Task) :
  tw_userId w = Some u → task_matches w r = true → task_userId r.2 = u.
Proof.
  destruct r as [i t]. unfold task_matches. intros ->. simpl.
  rewrite !andb_true_iff, String.eqb_eq. tauto.
Qed.

Lemma category_matches_owner (w : CategoryWhere) (u : string) (r : string * Category) :
  cw_userId w = Some u → category_matches w r = true → category_userId r.2 = u.
Proof.
  destruct r as [i c]. unfold category_matches. intros ->. simpl.
  rewrite !andb_true_iff, String.eqb_eq. tauto.
Qed.

Lemma category_rows_in_views (with_tasks : bool) (d : Db)
    (rows : list (string * Category)) :
  (λ v, (cv_id v, cv_category v)) <$> (category_view with_tasks d <$> rows) = rows.
Proof.
  rewrite <- list_fmap_compose. rewrite <- (list_fmap_id rows) at 2.
  apply list_fmap_ext. by intros _ [i t] _.
Qed.

(** The category loaded with a task of [u] is a category of [u]. *)
Lemma task_view_category (u : string) (d : Db) (r : string * Task) (c : string) :
  refs_owned d →
  tasks d !! r.1 = Some r.2 →
  task_userId r.2 = u →
  cr_id <$> tv_category (task_view d r) = Some c →
  ∃ row, categories d !! c = Some row ∧ category_userId row = u.
Proof.
  intros Href Hr Hu. unfold task_view; simpl.
  destruct (task_categoryId r.2) as [c'|] eqn:Hc; simpl; [|done].
  destruct (Href _ _ _ Hr Hc) as (row & Hrow & Hown).
  rewrite Hrow. simpl. intros [= <-]. exists row. split; congruence.
Qed.

(** The tasks loaded with a category of [u] are tasks of [u]. *)
Lemma category_view_tasks (u : string) (with_tasks : bool) (d : Db)
    (r : string * Category) (i : string) :
  refs_owned d →
  categories d !! r.1 = Some r.2 →
  category_userId r.2 = u →
  i ∈ included_tasks (category_view with_tasks d r) →
  ∃ t, tasks d !! i = Some t ∧ task_userId t = u.
Proof.
  intros Href Hr Hu. unfold included_tasks, category_view; simpl.
  destruct with_tasks; simpl; [|by intros ?%elem_of_nil].
  intros (ref & -> & (row & -> & Hin)%list_elem_of_fmap)%list_elem_of_fmap.
  apply sort_by_subset in Hin. unfold tasks_of in Hin.
  apply list_elem_of_In, filter_In in Hin as [Hin Hc].
  apply list_elem_of_In in Hin. destruct row as [j t].
  apply elem_of_map_to_list in Hin. apply bool_decide_eq_true in Hc. simpl in *.
  destruct (Href _ _ _ Hin Hc) as (row & Hrow & Hown).
  exists t. split; [done|]. congruence.
Qed.

(** Membership in a log that is written out. *)
Ltac in_log H :=
  repeat (apply elem_of_cons in H as [->|H]; [try (left; simpl; done)|]);
  try (by apply elem_of_nil in H).

(** A response without records, on a store that did not change. *)
Ltac no_records :=
  split; [apply others_untouched_refl|];
  split; [by split; intros ? ?%elem_of_nil|];
  intros ?; split; [by split; intros ? ?%elem_of_nil|done].

Lemma getTaskStats_scoped (now : Z) (u : string) (d : Db) :
  owner_scoped now u GetTaskStats d.
Proof.
  unfold owner_scoped. run_handler.
  split; [intros c Hc; in_log Hc|]. no_records.
Qed.

Lemma task_data_own (u : string) (d : Db) (r : string * Task) (m : option string) :
  tasks d !! r.1 = Some r.2 →
  task_userId r.2 = u →
  returns_own u d (TaskData m (task_view d r))
  ∧ (refs_owned d → includes_own u d (TaskData m (task_view d r))).
Proof.
  intros Hr Hu. split.
  - split; [|by intros ? ?%elem_of_nil].
    intros r' ->%list_elem_of_singleton. done.
  - intros Href. split; [by intros ? ?%elem_of_nil|].
    intros c Hc. apply elem_of_option_list in Hc.
    by apply (task_view_category u d r c).
Qed.

Lemma task_page_own (u : string) (d : Db) (w : TaskWhere) (rows : list (string * Task))
    (p l : JS.number) (total : nat) (pages : JS.number) :
  tw_userId w = Some u →
  (∀ r, r ∈ rows → r ∈ task_rows w d) →
  returns_own u d (TaskPage (task_view d <$> rows) p l total pages)
  ∧ (refs_owned d → includes_own u d (TaskPage (task_view d <$> rows) p l total pages)).
Proof.
  intros Hw Hrows.
  assert (∀ r, r ∈ rows → tasks d !! r.1 = Some r.2 ∧ task_userId r.2 = u) as Hown.
  { intros r [Hr Hm]%Hrows%task_rows_spec. split; [done|].
    by apply (task_matches_owner w). }
  split.
  - split; [|by intros ? ?%elem_of_nil]. simpl. rewrite task_rows_in_views. done.
  - intros Href. split; [by intros ? ?%elem_of_nil|]. simpl.
    intros c (v & (r & -> & Hr)%list_elem_of_fmap & Hc)%list_elem_of_omap.
    destruct (Hown r Hr). by apply (task_view_category u d r c).
Qed.

Lemma category_data_own (u : string) (with_tasks : bool) (d : Db) (r : string * Category)
    (m : option string) :
  categories d !! r.1 = Some r.2 →
  category_userId r.2 = u →
  returns_own u d (CategoryData m (category_view with_tasks d r))
  ∧ (refs_owned d → includes_own u d (CategoryData m (category_view with_tasks d r))).
Proof.
  intros Hr Hu. split.
  - split; [by intros ? ?%elem_of_nil|].
    intros r' ->%list_elem_of_singleton. done.
  - intros Href. split; [|by intros ? ?%elem_of_nil].
    intros i Hi. by apply (category_view_tasks u with_tasks d r i).
Qed.

Lemma category_list_own (u : string) (d : Db) (w : CategoryWhere)
    (rows : list (string * Category)) :
  cw_userId w = Some u →
  (∀ r, r ∈ rows → r ∈ category_rows w d) →
  returns_own u d (CategoryList (category_view false d <$> rows))
  ∧ (refs_owned d → includes_own u d (CategoryList (category_view false d <$> rows))).
Proof.
  intros Hw Hrows.
  assert (∀ r, r ∈ rows → categories d !! r.1 = Some r.2 ∧ category_userId r.2 = u)
    as Hown.
  { intros r [Hr Hm]%Hrows%category_rows_spec. split; [done|].
    by apply (category_matches_owner w). }
  split.
  - split; [by intros ? ?%elem_of_nil|]. simpl. rewrite category_rows_in_views. done.
  - intros Href. split; [|by intros ? ?%elem_of_nil]. simpl.
    intros i (v & Hi & (r & -> & Hr)%list_elem_of_fmap)%list_elem_of_bind.
    destruct (Hown r Hr). by apply (category_view_tasks u false d r i).
Qed.

Lemma getTask_scoped (now : Z) (u id : string) (d : Db) :
  owner_scoped now u (GetTask id) d.
Proof.
  unfold owner_scoped. run_handler. rewrite task_findFirst_by_id.
  destruct (tasks d !! id) as [t|] eqn:Ht; simpl;
    [case_decide as Hu; simpl|];
    (split; [intros c Hc; in_log Hc|]); try no_records.
  split; [apply others_untouched_refl|].
  destruct (task_data_own u d (id, t) None Ht Hu) as [Hown Hinc].
  split; [done|]. intros Href. split; [by apply Hinc|done].
Qed.

Lemma getTasks_scoped (now : Z) (u : string) (q : TaskQuery) (d : Db) :
  owner_scoped now u (GetTasks q) d.
Proof.
  unfold owner_scoped.
  destruct (getTasks_outcome now u q d) as [Hw Hr]. simpl in Hw, Hr.
  rewrite Hw. simpl.
  split; [intros c Hc; in_log Hc|].
  destruct Hr as [->|(rows & pages & -> & Hrows)]; [no_records|].
  split; [apply others_untouched_refl|].
  edestruct (task_page_own u d (Tasks.tasks_where u q)) as [Hown Hinc];
    [reflexivity | exact Hrows |
     split; [exact Hown | intros Href; split; [by apply Hinc | done]]].
Qed.

Lemma getCategories_scoped (now : Z) (u : string) (d : Db) :
  owner_scoped now u GetCategories d.
Proof.
  unfold owner_scoped. run_handler.
  split; [intros c Hc; in_log Hc|].
  split; [apply others_untouched_refl|].
  edestruct (category_list_own u d (mkCategoryWhere None (Some u) None)) as [Hown Hinc];
    [reflexivity | | split; [exact Hown | intros Href; split; [by apply Hinc | done]]].
  intros r Hr. by apply sort_by_subset in Hr.
Qed.

Lemma getCategory_scoped (now : Z) (u id : string) (d : Db) :
  owner_scoped now u (GetCategory id) d.
Proof.
  unfold owner_scoped. run_handler. rewrite category_findFirst_by_id.
  destruct (categories d !! id) as [c|] eqn:Hc; simpl;
    [case_decide as Hu; simpl|];
    (split; [intros c' Hc'; in_log Hc'|]); try no_records.
  split; [apply others_untouched_refl|].
  destruct (category_data_own u true d (id, c) None Hc Hu) as [Hown Hinc].
  split; [done|]. intros Href. split; [by apply Hinc|done].
Qed.

(** *** Writes *)

(** An update keeps the owner of a row, and sets the category of a task
    only when one is given. *)
Lemma patch_category_userId (now : Z) (data : CategoryUpdate) (c : Category) :
  category_userId (patch_category now data c) = category_userId c.
Proof. unfold patch_category. by destruct (no_category_data data). Qed.

Lemma patch_category_name (now : Z) (data : CategoryUpdate) (c : Category) :
  category_name (patch_category now data c) = default (category_name c) (cu_name data).
Proof.
  unfold patch_category, no_category_data.
  by destruct (cu_name data), (cu_color data).
Qed.

Lemma patch_task_userId (now : Z) (data : TaskUpdate) (st : option TaskStatus)
    (due : option (option Z)) (t : Task) :
  task_userId (patch_task now data st due t) = task_userId t.
Proof. unfold patch_task. by destruct (no_task_data data). Qed.

Lemma patch_task_categoryId (now : Z) (data : TaskUpdate) (st : option TaskStatus)
    (due : option (option Z)) (t : Task) :
  task_categoryId (patch_task now data st due t)
  = match tu_categoryId data with
    | Some c => Some c
    | None => task_categoryId t
    end.
Proof.
  unfold patch_task, no_task_data.
  destruct (tu_title data), (tu_description data), (tu_dueDate data), (tu_status data),
    (tu_categoryId data); done.
Qed.

Lemma scoped_task_write (u : string) (d : Db) (i : string) (row : Task)
    (m : option string) :
  task_userId row = u →
  (∀ t, tasks d !! i = Some t → task_userId t = u) →
  (refs_owned d → ∀ c, task_categoryId row = Some c →
     ∃ cr, categories d !! c = Some cr ∧ category_userId cr = u) →
  let d' := mkDb (<[i := row]> (tasks d)) (categories d) in
  others_untouched u d d'
  ∧ returns_own u d' (TaskData m (task_view d' (i, row)))
  ∧ (refs_owned d →
     includes_own u d' (TaskData m (task_view d' (i, row))) ∧ refs_owned d').
Proof.
  intros Hu Hold Hcat d'.
  assert (refs_owned d → refs_owned d') as Hpres.
  { intros Href j t c. unfold d'; simpl. rewrite lookup_insert_Some.
    intros [[<- <-]|[Hne Hj]] Hc.
    - destruct (Hcat Href c Hc) as (cr & ? & ?). exists cr. split; congruence.
    - by apply (Href j). }
  split; [|split].
  - split; [|done]. intros j t Ht. unfold d'; simpl.
    rewrite lookup_insert_Some. split.
    + intros Hj. right. split; [|done]. intros <-. by apply Ht, Hold.
    + intros [[<- <-]|[_ Hj]]; [done|done].
  - apply (task_data_own u d' (i, row) m); [|done].
    unfold d'; simpl. apply lookup_insert_eq.
  - intros Href. split; [|by apply Hpres].
    apply (task_data_own u d' (i, row) m); [|done|by apply Hpres].
    unfold d'; simpl. apply lookup_insert_eq.
Qed.

Lemma scoped_task_delete (u : string) (d : Db) (i : string) (t : Task) (b : Body) :
  tasks d !! i = Some t →
  task_userId t = u →
  task_rows_in b = [] → category_rows_in b = [] →
  task_refs_in b = [] → category_refs_in b = [] →
  let d' := mkDb (delete i (tasks d)) (categories d) in
  others_untouched u d d'
  ∧ returns_own u d' b
  ∧ (refs_owned d → includes_own u d' b ∧ refs_owned d').
Proof.
  intros Ht Hu E1 E2 E3 E4 d'. split; [|split].
  - split; [|done]. intros j t' Ht'. unfold d'; simpl.
    rewrite lookup_delete_Some. split; [|tauto].
    intros Hj. split; [|done]. intros <-. congruence.
  - unfold returns_own. rewrite E1, E2. by split; intros ? ?%elem_of_nil.
  - intros Href. split.
    + unfold includes_own. rewrite E3, E4. by split; intros ? ?%elem_of_nil.
    + intros j t' c. unfold d'; simpl. rewrite lookup_delete_Some.
      intros [_ Hj]. by apply (Href j).
Qed.

Lemma scoped_category_write (u : string) (d : Db) (i : string) (row : Category)
    (m : option string) :
  category_userId row = u →
  (∀ c, categories d !! i = Some c → category_userId c = u) →
  let d' := mkDb (tasks d) (<[i := row]> (categories d)) in
  others_untouched u d d'
  ∧ returns_own u d' (CategoryData m (category_view false d' (i, row)))
  ∧ (refs_owned d →
     includes_own u d' (CategoryData m (category_view false d' (i, row)))
     ∧ refs_owned d').
Proof.
  intros Hu Hold d'.
  assert (refs_owned d → refs_owned d') as Hpres.
  { intros Href j t c Hj Hc. unfold d'; simpl.
    destruct (Href j t c Hj Hc) as (cr & Hcr & Hown).
    destruct (decide (i = c)) as [->|Hne].
    - exists row. rewrite lookup_insert_eq. split; [done|].
      rewrite Hu, <- Hown. symmetry. by apply Hold.
    - exists cr. by rewrite lookup_insert_ne. }
  split; [|split].
  - split; [done|]. intros j c Hc. unfold d'; simpl.
    rewrite lookup_insert_Some. split.
    + intros Hj. right. split; [|done]. intros <-. by apply Hc, Hold.
    + intros [[<- <-]|[_ Hj]]; [done|done].
  - apply (category_data_own u false d' (i, row) m); [|done].
    unfold d'; simpl. apply lookup_insert_eq.
  - intros Href. split; [|by apply Hpres].
    apply (category_data_own u false d' (i, row) m); [|done|by apply Hpres].
    unfold d'; simpl. apply lookup_insert_eq.
Qed.

Lemma scoped_category_delete (u : string) (d : Db) (i : string) (c : Category)
    (b : Body) :
  categories d !! i = Some c →
  category_userId c = u →
  (∀ j t, tasks d !! j = Some t → task_categoryId t ≠ Some i) →
  task_rows_in b = [] → category_rows_in b = [] →
  task_refs_in b = [] → category_refs_in b = [] →
  let d' := mkDb (set_null i <$> tasks d) (delete i (categories d)) in
  others_untouched u d d'
  ∧ returns_own u d' b
  ∧ (refs_owned d → includes_own u d' b ∧ refs_owned d').
Proof.
  intros Hc Hu Hno E1 E2 E3 E4 d'. unfold d'.
  rewrite set_null_unreferenced by done. split; [|split].
  - split; [done|]. intros j c' Hc'. simpl.
    rewrite lookup_delete_Some. split; [|tauto].
    intros Hj. split; [|done]. intros <-. congruence.
  - unfold returns_own. rewrite E1, E2. by split; intros ? ?%elem_of_nil.
  - intros Href. split.
    + unfold includes_own. rewrite E3, E4. by split; intros ? ?%elem_of_nil.
    + intros j t c' Hj Hc'. simpl.
      destruct (Href j t c' Hj Hc') as (cr & Hcr & Hown).
      exists cr. split; [|done]. rewrite lookup_delete_ne; [done|].
      intros <-. by apply (Hno j t).
Qed.

Lemma deleteTask_scoped (now : Z) (u id : string) (d : Db) :
  owner_scoped now u (DeleteTask id) d.
Proof.
  unfold owner_scoped. run_handler. rewrite task_findFirst_by_id.
  destruct (tasks d !! id) as [t|] eqn:Ht; simpl;
    [case_decide as Hu; simpl; rewrite ?Ht; simpl|];
    (split; [intros c Hc; in_log Hc|]); try no_records.
  by apply (scoped_task_delete u d id t).
Qed.

Lemma deleteCategory_scoped (now : Z) (u id : string) (d : Db) :
  owner_scoped now u (DeleteCategory id) d.
Proof.
  unfold owner_scoped. run_handler. rewrite category_findFirst_by_id.
  destruct (categories d !! id) as [c|] eqn:Hc; simpl;
    [case_decide as Hu; simpl|];
    try (split; [intros c' Hc'; in_log Hc'|]; no_records).
  fold (in_category id).
  destruct (task_rows (in_category id) d) as [|x rows] eqn:Hrows; simpl.
  - rewrite Hc. simpl. split.
    { intros c' Hc'. in_log Hc'. right. by exists id, c. }
    apply (scoped_category_delete u d id c); try done.
    by apply no_tasks_in_category.
  - split.
    { intros c' Hc'. in_log Hc'. right. by exists id, c. }
    no_records.
Qed.

Lemma createCategory_scoped (now : Z) (u cuid : string) (b : CategoryBody) (d : Db) :
  owner_scoped now u (CreateCategory cuid b) d.
Proof.
  unfold owner_scoped. run_handler.
  destruct (Validation.createCategorySchema b); simpl;
    [split; [intros c Hc; in_log Hc|]; no_records|].
  destruct (head (category_rows _ d)); simpl;
    [split; [intros c Hc; in_log Hc|]; no_records|].
  destruct (b_name b) as [n|]; simpl;
    [|split; [intros c Hc; in_log Hc|]; no_records].
  destruct (categories d !! cuid) as [c0|] eqn:Hfresh; simpl;
    [split; [intros c Hc; in_log Hc|]; no_records|].
  split; [intros c Hc; in_log Hc|].
  apply (scoped_category_write u d cuid); [done|]. intros c. congruence.
Qed.

Lemma updateCategory_scoped (now : Z) (u id : string) (b : CategoryBody) (d : Db) :
  owner_scoped now u (UpdateCategory id b) d.
Proof.
  unfold owner_scoped. run_handler.
  destruct (Validation.updateCategorySchema b); simpl;
    [split; [intros c Hc; in_log Hc|]; no_records|].
  rewrite category_findFirst_by_id.
  destruct (categories d !! id) as [c|] eqn:Hc; simpl;
    [case_decide as Hu; simpl|];
    try (split; [intros c' Hc'; in_log Hc'|]; no_records).
  destruct (JS.truthy (b_name b) && _)%bool; simpl;
    [destruct (head (category_rows _ d)); simpl|];
    rewrite ?Hc; simpl;
    (split; [intros c' Hc'; in_log Hc'|]); try no_records.
  all: apply (scoped_category_write u d id);
    [by rewrite patch_category_userId|]; intros c'; congruence.
Qed.

Lemma createTaskSchema_categoryId (b : TaskBody) :
  Validation.createTaskSchema b = None → b_categoryId b ≠ Some "".
Proof.
  unfold Validation.createTaskSchema, Validation.first_error.
  intros H Hc. rewrite Hc in H. simpl in H.
  repeat case_match; done.
Qed.

Lemma updateTaskSchema_categoryId (b : TaskBody) :
  Validation.updateTaskSchema b = None → b_categoryId b ≠ Some "".
Proof.
  unfold Validation.updateTaskSchema, Validation.first_error.
  intros H Hc. rewrite Hc in H. simpl in H.
  repeat case_match; done.
Qed.

Lemma owned_category_findFirst (d : Db) (id u : string) :
  head (category_rows (Tasks.owned_category id u) d)
  = c ← categories d !! id;
    if decide (category_userId c = u) then Some (id, c) else None.
Proof. apply category_findFirst_by_id. Qed.

Lemma createTask_scoped (now : Z) (u cuid : string) (b : TaskBody) (d : Db) :
  owner_scoped now u (CreateTask cuid b) d.
Proof.
  unfold owner_scoped. run_handler.
  destruct (Validation.createTaskSchema b) eqn:Hv; simpl;
    [split; [intros c Hc; in_log Hc|]; no_records|].
  apply createTaskSchema_categoryId in Hv.
  destruct (b_categoryId b) as [c|] eqn:Hcat; simpl.
  - destruct (String.eqb_spec c "") as [->|Hne]; [done|]. simpl.
    rewrite owned_category_findFirst.
    destruct (categories d !! c) as [cr|] eqn:Hc; simpl;
      [case_decide as Hu; simpl|];
      try (split; [intros c' Hc'; in_log Hc'|]; no_records).
    destruct (b_title b), (parse_status (JS.or_else (b_status b) "PENDING")),
      (b_dueDate b) as [[]|]; simpl;
      try (split; [intros c' Hc'; in_log Hc'|]; no_records).
    all: destruct (tasks d !! cuid) eqn:Hfresh; simpl;
      try (split; [intros c' Hc'; in_log Hc'|]; no_records).
    all: rewrite Hc; simpl.
    all: split; [intros c' Hc'; in_log Hc'|].
    all: apply (scoped_task_write u d cuid); [done|intros; congruence|].
    all: simpl; intros _ ? [= <-]; by exists cr.
  - destruct (b_title b), (parse_status (JS.or_else (b_status b) "PENDING")),
      (b_dueDate b) as [[]|]; simpl;
      try (split; [intros c' Hc'; in_log Hc'|]; no_records).
    all: destruct (tasks d !! cuid) eqn:Hfresh; simpl;
      try (split; [intros c' Hc'; in_log Hc'|]; no_records).
    all: split; [intros c' Hc'; in_log Hc'|].
    all: apply (scoped_task_write u d cuid); [done|intros; congruence|].
    all: simpl; done.
Qed.

Lemma updateTask_scoped (now : Z) (u id : string) (b : TaskBody) (d : Db) :
  owner_scoped now u (UpdateTask id b) d.
Proof.
  unfold owner_scoped. run_handler.
  destruct (Validation.updateTaskSchema b) eqn:Hv; simpl;
    [split; [intros c Hc; in_log Hc|]; no_records|].
  apply updateTaskSchema_categoryId in Hv.
  rewrite task_findFirst_by_id.
  destruct (tasks d !! id) as [t|] eqn:Ht; simpl;
    [case_decide as Hu; simpl|];
    try (split; [intros c' Hc'; in_log Hc'|]; no_records).
  destruct (b_categoryId b) as [c|] eqn:Hcat; simpl.
  - destruct (String.eqb_spec c "") as [->|Hne]; [done|]. simpl.
    rewrite owned_category_findFirst.
    destruct (categories d !! c) as [cr|] eqn:Hc; simpl;
      [case_decide as Hcu; simpl|];
      try (split; [intros c' Hc'; in_log Hc'|]; no_records).
    destruct (when_truthy (b_status b)) as [s|]; simpl;
      [destruct (parse_status s); simpl|];
      destruct (b_dueDate b) as [[]|]; simpl;
      rewrite ?Ht; simpl; rewrite ?Hc; simpl;
      (split; [intros c' Hc'; in_log Hc'|]); try no_records.
    all: apply (scoped_task_write u d id);
      [by rewrite patch_task_userId|intros; congruence|].
    all: rewrite patch_task_categoryId; simpl; intros _ ? [= <-]; by exists cr.
  - destruct (when_truthy (b_status b)) as [s|]; simpl;
      [destruct (parse_status s); simpl|];
      destruct (b_dueDate b) as [[]|]; simpl;
      rewrite ?Ht; simpl;
      (split; [intros c' Hc'; in_log Hc'|]); try no_records.
    all: apply (scoped_task_write u d id);
      [by rewrite patch_task_userId|intros; congruence|].
    all: rewrite patch_task_categoryId; simpl.
    all: intros Href c Hc; destruct (Href id t c Ht Hc) as (cr & ? & ?).
    all: exists cr; split; congruence.
Qed.

(** The delete of a category counts the tasks of the category without the
    owner predicate, on a store that the API itself can produce; and on a
    store where a task of Bob refers to the category of Alice, the answer to
    Alice depends on that task. *)
Lemma unscoped_task_count_counterexample :
  let r := run 0 "alice" (DeleteCategory "c1") sample_db in
  let count := TaskCount (mkTaskWhere None None None (Some "c1") None None) in
  count ∈ log r.2
  ∧ ¬ reads_owner "alice" count
  ∧ tasks shared_db !! "t9"
    = Some (mkTask "Plan" None None PENDING "bob" (Some "c1") 20 20)
  ∧ (run 0 "alice" (DeleteCategory "c1") shared_db).1
    = mkResponse 400
        (Message false
           "Cannot delete category. It has 1 associated tasks. Please move or delete the tasks first.")
  ∧ (run 0 "alice" (DeleteCategory "c1") (mkDb ∅ (categories shared_db))).1
    = mkResponse 200 (Message true "Category deleted successfully").
Proof.
  split; [|split; [|by vm_compute]].
  - vm_compute. apply list_elem_of_further, list_elem_of_here.
  - simpl. discriminate.
Qed.

(** C1, as the code has it: for every operation of an authenticated user on
    tasks and categories, every lookup and aggregate carries the owner
    predicate, except the count of the tasks of a category in its deletion,
    which is filtered by the category alone and is made only once that
    category was found among the user's own; no operation changes a record
    of another owner; every record returned is a stored record of the user;
    and on a store where the category of every task belongs to the owner of
    the task, which every operation preserves, the records included through
    a relation are the user's too. *)
Theorem operations_owner_scoped (now : Z) (u : string) (op : Op) (d : Db) :
  let r := run now u op d in
  (∀ c, c ∈ log r.2 →
     reads_owner u c
     ∨ ∃ id row, op = DeleteCategory id
                 ∧ c = TaskCount (mkTaskWhere None None None (Some id) None None)
                 ∧ categories d !! id = Some row ∧ category_userId row = u)
  ∧ others_untouched u d (db r.2)
  ∧ returns_own u (db r.2) (body r.1)
  ∧ (refs_owned d → includes_own u (db r.2) (body r.1) ∧ refs_owned (db r.2)).
Proof.
  destruct op.
  - apply getTasks_scoped.
  - apply getTask_scoped.
  - apply createTask_scoped.
  - apply updateTask_scoped.
  - apply deleteTask_scoped.
  - apply getTaskStats_scoped.
  - apply getCategories_scoped.
  - apply getCategory_scoped.
  - apply createCategory_scoped.
  - apply updateCategory_scoped.
  - apply deleteCategory_scoped.
Qed.

Lemma sample_db_refs_owned : refs_owned sample_db.
Proof.
  intros i t c Ht Hc. each_row Ht; simpl in Hc; simplify_eq.
  by exists (mkCategory "Work" "#3B82F6" "alice" 5 5).
Qed.

Lemma operations_owner_scoped_witness :
  let r := run 0 "alice" (GetTask "t1") sample_db in
  refs_owned sample_db
  ∧ status r.1 = 200%Z
  ∧ returns_own "alice" (db r.2) (body r.1)
  ∧ includes_own "alice" (db r.2) (body r.1).
Proof.
  intros r.
  destruct (operations_owner_scoped 0 "alice" (GetTask "t1") sample_db)
    as (_ & _ & Hown & Hinc).
  destruct (Hinc sample_db_refs_owned) as [Hinc' _].
  exact (conj sample_db_refs_owned (conj eq_refl (conj Hown Hinc'))).
Defined.

(** * Further properties of the code *)

(** ** utils/jwt.ts *)

(** X1: an access token is accepted as a refresh token exactly when the two
    secrets are the same string and the token has not expired, and a refresh
    token as an access token likewise: the two kinds of token are told apart
    by the secrets alone. *)
Theorem token_kinds_differ_by_secret (ms : string → option Z) (env : gmap string string)
    (clock clock' : Z) (u a r : string) (access refresh : Jwt.Token) :
  env !! "JWT_SECRET" = Some a →
  env !! "JWT_REFRESH_SECRET" = Some r →
  Jwt.generateAccessToken ms env clock u = Jwt.Ok access →
  Jwt.generateRefreshToken ms env clock u = Jwt.Ok refresh →
  (a ≠ r →
     Jwt.verifyRefreshToken env clock' access = Jwt.Err "Invalid or expired refresh token"
     ∧ Jwt.verifyAccessToken env clock' refresh = Jwt.Err "Invalid or expired token")
  ∧ (a = r →
     (∀ e, Jwt.verifyAccessToken env clock' access = Jwt.Ok e →
           Jwt.verifyRefreshToken env clock' access = Jwt.Ok e)
     ∧ (∀ e, Jwt.verifyRefreshToken env clock' refresh = Jwt.Ok e →
             Jwt.verifyAccessToken env clock' refresh = Jwt.Ok e)).
Proof.
  intros Ha Hr.
  unfold Jwt.generateAccessToken, Jwt.generateRefreshToken, Jwt.verifyAccessToken,
    Jwt.verifyRefreshToken, Jwt.sign, Jwt.verify.
  rewrite Ha, Hr. simpl.
  destruct (String.eqb_spec a ""), (String.eqb_spec r ""); simpl; try done.
  destruct (ms (JS.or_else (env !! "JWT_EXPIRE") "1h")); [|done].
  destruct (ms (JS.or_else (env !! "JWT_REFRESH_EXPIRE") "7d")); [|done].
  intros [= <-] [= <-]. split.
  - intros Hne. apply String.eqb_neq in Hne as Har.
    assert ((r =? a) = false) as Hra by (apply String.eqb_neq; congruence).
    rewrite Har, Hra. simpl. done.
  - intros ->. rewrite String.eqb_refl. simpl.
    split; intros e; destruct (_ <=? clock')%Z; done.
Qed.

Lemma token_kinds_differ_by_secret_witness :
  let env : gmap string string :=
    {[ "JWT_SECRET" := "access-key"; "JWT_REFRESH_SECRET" := "refresh-key" ]} in
  ∃ access,
    Jwt.generateAccessToken Jwt.ms_units env 1700000000 "user-1" = Jwt.Ok access
    ∧ Jwt.verifyRefreshToken env 1700000000 access
      = Jwt.Err "Invalid or expired refresh token".
Proof.
  intros env.
  exists (Jwt.Signed (Jwt.mkJwtPayload "user-1" (Some 1700000000%Z) (Some 1700003600%Z)
                        (Some "task-manager-api") None) "access-key").
  split; [reflexivity|].
  destruct (token_kinds_differ_by_secret Jwt.ms_units env 1700000000 1700000000 "user-1"
              "access-key" "refresh-key" _ _ eq_refl eq_refl eq_refl eq_refl)
    as [Hne _].
  destruct (Hne ltac:(discriminate)) as [H _]. exact H.
Defined.

(** X2: an access token issued at [clock] with a time span of [span]
    milliseconds is accepted at the times strictly before
    [clock + span / 1000] seconds and at no other time; once refused, the
    error is the one message for every failure. *)
Theorem access_token_validity_window (ms : string → option Z) (env : gmap string string)
    (clock clock' span : Z) (u secret : string) (token : Jwt.Token) :
  env !! "JWT_SECRET" = Some secret →
  ms (JS.or_else (env !! "JWT_EXPIRE") "1h") = Some span →
  Jwt.generateAccessToken ms env clock u = Jwt.Ok token →
  ((clock' < clock + span / 1000)%Z →
     ∃ payload, Jwt.verifyAccessToken env clock' token = Jwt.Ok payload
                ∧ Jwt.jp_id payload = u
                ∧ Jwt.jp_exp payload = Some (clock + span / 1000)%Z)
  ∧ ((clock + span / 1000 ≤ clock')%Z →
     Jwt.verifyAccessToken env clock' token = Jwt.Err "Invalid or expired token").
Proof.
  intros Hs Hms.
  unfold Jwt.generateAccessToken, Jwt.verifyAccessToken, Jwt.sign, Jwt.verify.
  rewrite Hs, Hms. simpl.
  destruct (String.eqb_spec secret ""); simpl; [done|].
  intros [= <-]. rewrite String.eqb_refl. simpl.
  destruct (Z.leb_spec (clock + span / 1000) clock'); split; intros; try lia; eauto.
Qed.

Lemma access_token_validity_window_witness :
  let env : gmap string string := {[ "JWT_SECRET" := "s3cret" ]} in
  ∃ token,
    Jwt.generateAccessToken Jwt.ms_units env 1700000000 "user-1" = Jwt.Ok token
    ∧ Jwt.verifyAccessToken env 1700003600 token = Jwt.Err "Invalid or expired token".
Proof.
  intros env.
  exists (Jwt.Signed (Jwt.mkJwtPayload "user-1" (Some 1700000000%Z) (Some 1700003600%Z)
                        (Some "task-manager-api") None) "s3cret").
  split; [reflexivity|].
  destruct (access_token_validity_window Jwt.ms_units env 1700000000 1700003600 3600000
              "user-1" "s3cret" _ eq_refl eq_refl eq_refl) as [_ H].
  apply H. reflexivity.
Defined.

(** X3: with the access secret configured, a token is accepted exactly when
    it is signed with that secret, carries no expiry or one in the future,
    and carries no time before which it is not valid or one that has come; a
    token that is malformed, signed with another secret, expired or not yet
    valid is refused with one and the same message. *)
Theorem verify_accepts_signed_unexpired (env : gmap string string) (clock : Z)
    (secret : string) (token : Jwt.Token) :
  env !! "JWT_SECRET" = Some secret →
  secret ≠ "" →
  (∀ payload,
     Jwt.verifyAccessToken env clock token = Jwt.Ok payload
     ↔ token = Jwt.Signed payload secret
       ∧ (∀ e, Jwt.jp_exp payload = Some e → (clock < e)%Z)
       ∧ (∀ n, Jwt.jp_nbf payload = Some n → (n ≤ clock)%Z))
  ∧ ((∀ payload, Jwt.verifyAccessToken env clock token ≠ Jwt.Ok payload) →
     Jwt.verifyAccessToken env clock token = Jwt.Err "Invalid or expired token").
Proof.
  intros Hs Hne. unfold Jwt.verifyAccessToken, Jwt.verify. rewrite Hs. simpl.
  apply String.eqb_neq in Hne. rewrite Hne. simpl.
  destruct token as [p key|text]; simpl.
  2:{ split; [|done]. intros payload. split; [done|]. by intros [? _]. }
  destruct (String.eqb_spec key secret) as [->|Hk]; simpl.
  2:{ split; [|done]. intros payload. split; [done|]. intros [[= <- <-] _]. done. }
  destruct (Jwt.jp_nbf p) as [n|] eqn:Hn; simpl.
  - destruct (Z.ltb_spec clock n) as [Hearly|Hactive]; simpl.
    { split; [|done]. intros payload. split; [done|].
      intros ([= <-] & _ & Hnbf). specialize (Hnbf n Hn). lia. }
    destruct (Jwt.jp_exp p) as [e|] eqn:He; simpl.
    2:{ split; [|intros H; by destruct (H p)].
        intros payload. split.
        - intros [= <-]. rewrite He, Hn. split; [done|].
          split; [done|]. by intros ? [= <-].
        - by intros [[= <-] _]. }
    destruct (Z.leb_spec e clock) as [Hle|Hlt]; simpl.
    + split; [|done]. intros payload. split; [done|].
      intros ([= <-] & Hexp & _). specialize (Hexp e He). lia.
    + split; [|intros Hall; by destruct (Hall p)].
      intros payload. split.
      * intros [= <-]. rewrite He, Hn. split; [done|].
        split; intros ? [= <-]; done.
      * by intros [[= <-] _].
  - destruct (Jwt.jp_exp p) as [e|] eqn:He; simpl.
    2:{ split; [|intros H; by destruct (H p)].
        intros payload. split.
        - intros [= <-]. by rewrite He, Hn.
        - by intros [[= <-] _]. }
    destruct (Z.leb_spec e clock) as [Hle|Hlt]; simpl.
    + split; [|done]. intros payload. split; [done|].
      intros ([= <-] & Hexp & _). specialize (Hexp e He). lia.
    + split; [|intros Hall; by destruct (Hall p)].
      intros payload. split.
      * intros [= <-]. rewrite He, Hn. split; [done|].
        split; [|done]. by intros ? [= <-].
      * by intros [[= <-] _].
Qed.

Lemma verify_accepts_signed_unexpired_witness :
  let env : gmap string string := {[ "JWT_SECRET" := "s3cret" ]} in
  let early := Jwt.mkJwtPayload "user-1" None None None (Some 1700000500%Z) in
  Jwt.verifyAccessToken env 1700000000 (Jwt.Malformed "not.a.token")
  = Jwt.Err "Invalid or expired token"
  ∧ Jwt.verifyAccessToken env 1700000000 (Jwt.Signed early "s3cret")
    = Jwt.Err "Invalid or expired token"
  ∧ Jwt.verifyAccessToken env 1700000500 (Jwt.Signed early "s3cret") = Jwt.Ok early.
Proof.
  intros env early. split; [|split].
  - destruct (verify_accepts_signed_unexpired env 1700000000 "s3cret"
                (Jwt.Malformed "not.a.token") eq_refl ltac:(discriminate)) as [_ H].
    apply H. intros payload. discriminate.
  - destruct (verify_accepts_signed_unexpired env 1700000000 "s3cret"
                (Jwt.Signed early "s3cret") eq_refl ltac:(discriminate)) as [_ H].
    apply H. intros payload. discriminate.
  - destruct (verify_accepts_signed_unexpired env 1700000500 "s3cret"
                (Jwt.Signed early "s3cret") eq_refl ltac:(discriminate)) as [H _].
    apply H. split; [reflexivity|]. split; [discriminate|].
    intros n [= <-]. reflexivity.
Defined.

(** X4: with the refresh secret configured and an expiry setting that
    denotes a time span, a refresh token issued for [u] is accepted by the
    refresh verification at every time before its expiry, with a payload
    that carries [u]. *)
Theorem verify_issued_refresh_token (ms : string → option Z) (env : gmap string string)
    (clock clock' span : Z) (u secret : string) :
  env !! "JWT_REFRESH_SECRET" = Some secret →
  secret ≠ "" →
  ms (JS.or_else (env !! "JWT_REFRESH_EXPIRE") "7d") = Some span →
  (clock' < clock + span / 1000)%Z →
  ∃ token payload,
    Jwt.generateRefreshToken ms env clock u = Jwt.Ok token
    ∧ Jwt.verifyRefreshToken env clock' token = Jwt.Ok payload
    ∧ Jwt.jp_id payload = u.
Proof.
  intros Hs Hne Hms Hlt.
  unfold Jwt.generateRefreshToken, Jwt.verifyRefreshToken, Jwt.sign, Jwt.verify.
  rewrite Hs. simpl. apply String.eqb_neq in Hne. rewrite Hne. simpl.
  rewrite Hms. eexists _, _. split; [reflexivity|].
  cbn. rewrite String.eqb_refl. cbn.
  destruct (Z.leb_spec (clock + span / 1000) clock'); [lia|]. done.
Qed.

Lemma verify_issued_refresh_token_witness :
  let env : gmap string string := {[ "JWT_REFRESH_SECRET" := "r3fresh" ]} in
  ∃ token payload,
    Jwt.generateRefreshToken Jwt.ms_units env 1700000000 "user-1" = Jwt.Ok token
    ∧ Jwt.verifyRefreshToken env 1700600000 token = Jwt.Ok payload
    ∧ Jwt.jp_id payload = "user-1".
Proof.
  intros env.
  apply (verify_issued_refresh_token Jwt.ms_units env 1700000000 1700600000 604800000
           "user-1" "r3fresh"); [reflexivity | discriminate | reflexivity | reflexivity].
Defined.

(** ** The routes on tasks and categories *)

(** The next test of the handler, innermost first. *)
Ltac inner_case :=
  match goal with
  | |- context [@fmap option _ _ _ _ ?x] =>
      lazymatch x with
      | context [match _ with _ => _ end] => fail
      | Some _ => fail
      | None => fail
      | _ => destruct x eqn:?
      end
  | |- context [match ?x with _ => _ end] =>
      lazymatch x with
      | context [match _ with _ => _ end] => fail
      | _ => destruct x eqn:?
      end
  end.

Ltac all_cases := repeat (inner_case; simpl in *).

Lemma read_unchanged (now : Z) (u : string) (op : Op) (d : Db) :
  is_read op = true → db (run now u op d).2 = d.
Proof.
  destruct op; simpl; try done; intros _; run_handler; all_cases; done.
Qed.

(** X5: an operation that only reads, and an operation that is answered
    with a status other than 200 and 201, leaves the store exactly as it
    was. *)
Theorem refused_operation_changes_nothing (now : Z) (u : string) (op : Op) (d : Db) :
  is_read op = true
  ∨ (status (run now u op d).1 ≠ 200%Z ∧ status (run now u op d).1 ≠ 201%Z) →
  db (run now u op d).2 = d.
Proof.
  destruct op; simpl; run_handler; intros [H|[H1 H2]]; try done;
    revert H || revert H1 H2; all_cases; intros; done.
Qed.

Lemma refused_operation_changes_nothing_witness :
  status (run 0 "alice" (DeleteCategory "c1") sample_db).1 = 400%Z
  ∧ db (run 0 "alice" (DeleteCategory "c1") sample_db).2 = sample_db.
Proof.
  assert (status (run 0 "alice" (DeleteCategory "c1") sample_db).1 = 400%Z) as Hs
    by reflexivity.
  split; [exact Hs|].
  apply refused_operation_changes_nothing. right. rewrite Hs. split; discriminate.
Defined.

Lemma writes_one_table (now : Z) (u : string) (op : Op) (d : Db) :
  if on_categories op
  then tasks (db (run now u op d).2) = tasks d
  else categories (db (run now u op d).2) = categories d.
Proof.
  destruct op; simpl; run_handler; try (all_cases; done).
  rewrite category_findFirst_by_id.
  destruct (categories d !! id) as [c|] eqn:Hc; simpl; [|done].
  case_decide; simpl; [|done].
  fold (in_category id).
  destruct (task_rows (in_category id) d) as [|x rows] eqn:Hrows; simpl; [|done].
  rewrite Hc. simpl. apply set_null_unreferenced. by apply no_tasks_in_category.
Qed.

(** X6: the operations on categories never change a task, and the
    operations on tasks never change a category; in particular the deletion
    of a category never clears the category of a task, since it is made only
    when no task refers to the category. *)
Theorem tables_written_separately (now : Z) (u : string) (op : Op) (d : Db) :
  if on_categories op
  then tasks (db (run now u op d).2) = tasks d
  else categories (db (run now u op d).2) = categories d.
Proof. apply writes_one_table. Qed.

Lemma names_unique_insert (d : Db) (ts : gmap string Task) (i : string) (row : Category) :
  names_unique d →
  (∀ j c', j ≠ i → categories d !! j = Some c' →
     category_userId c' = category_userId row →
     category_name c' ≠ category_name row) →
  names_unique (mkDb ts (<[i := row]> (categories d))).
Proof.
  intros Hd Hnew j k c c'. simpl. rewrite !lookup_insert_Some.
  intros [[<- <-]|[Hj Hc]] [[<- <-]|[Hk Hc']] Hu Hn; try done.
  - exfalso. by apply (Hnew k c').
  - exfalso. by apply (Hnew j c).
  - by apply (Hd j k c c').
Qed.

Lemma names_unique_delete (d : Db) (ts : gmap string Task) (i : string) :
  names_unique d → names_unique (mkDb ts (delete i (categories d))).
Proof.
  intros Hd j k c c'. simpl. rewrite !lookup_delete_Some.
  intros [_ Hc] [_ Hc']. by apply (Hd j k c c').
Qed.

Lemma names_unique_same_table (d d' : Db) :
  categories d' = categories d → names_unique d → names_unique d'.
Proof. unfold names_unique. by intros ->. Qed.

Lemma createCategory_names_unique (now : Z) (u cuid : string) (b : CategoryBody) (d : Db) :
  names_unique d → names_unique (db (run now u (CreateCategory cuid b) d).2).
Proof.
  intros Hd. run_handler.
  destruct (Validation.createCategorySchema b); simpl; [done|].
  destruct (head (category_rows _ d)) eqn:Hhead; simpl; [done|].
  destruct (b_name b) as [n|]; simpl; [|done].
  destruct (categories d !! cuid) eqn:Hfresh; simpl; [done|].
  apply names_unique_insert; [done|]. simpl.
  intros j c' _ Hj Hu Hn.
  rewrite category_findFirst_None in Hhead. specialize (Hhead j c' Hj).
  assert (category_matches (mkCategoryWhere None (Some u) (Some n)) (j, c') = true)
    by (by apply named_matches).
  congruence.
Qed.

Lemma updateCategory_names_unique (now : Z) (u id : string) (b : CategoryBody) (d : Db) :
  names_unique d → names_unique (db (run now u (UpdateCategory id b) d).2).
Proof.
  intros Hd. run_handler.
  destruct (Validation.updateCategorySchema b); simpl; [done|].
  rewrite category_findFirst_by_id.
  destruct (categories d !! id) as [c|] eqn:Hc; simpl; [|done].
  case_decide as Hu; simpl; [|done].
  assert (∀ row, category_userId row = category_userId c →
                 category_name row = category_name c →
                 names_unique (mkDb (tasks d) (<[id := row]> (categories d)))) as Hsame.
  { intros row Hru Hrn. apply names_unique_insert; [done|].
    intros j c' Hne Hj Hu' Hn. apply Hne.
    apply (Hd j id c' c); congruence. }
  destruct (b_name b) as [n|] eqn:Hn; simpl.
  2:{ rewrite Hc. simpl.
      apply Hsame; [apply patch_category_userId|by rewrite patch_category_name]. }
  destruct (String.eqb_spec n ""); simpl.
  { rewrite Hc. simpl. apply Hsame; [apply patch_category_userId|].
    rewrite patch_category_name. unfold when_truthy. simpl.
    by destruct (String.eqb_spec n ""). }
  destruct (bool_decide_reflect (Some n = Some (category_name c))) as [[= E]|E]; simpl.
  { rewrite Hc. simpl. apply Hsame; [apply patch_category_userId|].
    rewrite patch_category_name. unfold when_truthy. simpl.
    by destruct (String.eqb_spec n ""). }
  destruct (head (category_rows _ d)) eqn:Hhead; simpl; [done|].
  rewrite Hc. simpl. apply names_unique_insert; [done|].
  rewrite patch_category_userId, patch_category_name. unfold when_truthy. simpl.
  destruct (String.eqb_spec n ""); [done|]. simpl.
  intros j c' Hne Hj Hu' Hn'.
  rewrite category_findFirst_None in Hhead. specialize (Hhead j c' Hj).
  assert (category_matches (mkCategoryWhere (Some (Not id)) (Some u) (Some n)) (j, c')
          = true) by (apply other_named_matches; repeat split; congruence).
  congruence.
Qed.

(** X7: every operation keeps the names of the categories of an owner
    distinct: on a store where no two categories of one owner bear the same
    name, the store after the operation is such a store too. *)
Theorem category_names_stay_unique (now : Z) (u : string) (op : Op) (d : Db) :
  names_unique d → names_unique (db (run now u op d).2).
Proof.
  intros Hd. pose proof (writes_one_table now u op d) as Hw.
  destruct op; simpl in Hw;
    try (by apply (names_unique_same_table d));
    try (rewrite read_unchanged; done).
  - by apply createCategory_names_unique.
  - by apply updateCategory_names_unique.
  - run_handler. rewrite category_findFirst_by_id.
    destruct (categories d !! id) as [c|] eqn:Hc; simpl; [|done].
    case_decide; simpl; [|done].
    destruct (task_rows _ d); simpl; [|done].
    rewrite Hc. simpl. by apply names_unique_delete.
Qed.

Lemma category_names_stay_unique_witness :
  names_unique sample_db
  ∧ names_unique
      (db (run 7 "bob" (CreateCategory "c3" (mkCategoryBody (Some "Work") None))
             sample_db).2).
Proof.
  assert (names_unique sample_db) as H.
  { intros i j c c' Hi Hj. each_row Hi; each_row Hj; done. }
  split; [exact H|]. by apply category_names_stay_unique.
Defined.





(** X9: a creation or an update of a task that names a category which the
    user does not own (there is none under the identifier, or it belongs to
    someone else) is answered with status 400 and the one message for both
    cases, and writes nothing. *)
Theorem task_with_foreign_category_refused (now : Z) (u cuid id c : string)
    (b : TaskBody) (t : Task) (d : Db) :
  b_categoryId b = Some c →
  c ≠ "" →
  no_category_of u c d →
  tasks d !! id = Some t →
  task_userId t = u →
  let refused :=
    mkResponse 400 (Message false "Category not found or does not belong to user") in
  (asyncHandler (Tasks.createTask cuid now u b) d).1 = refused
  ∧ db (asyncHandler (Tasks.createTask cuid now u b) d).2 = d
  ∧ (asyncHandler (Tasks.updateTask now u id b) d).1 = refused
  ∧ db (asyncHandler (Tasks.updateTask now u id b) d).2 = d.
Proof.
  intros Hc Hne Hno Ht Hu refused. subst refused.
  assert (head (category_rows (Tasks.owned_category c u) d) = None) as Hhead
    by (by apply category_findFirst_hidden).
  apply String.eqb_neq in Hne.
  repeat split; run_handler; rewrite ?task_findFirst_by_id, ?Ht; simpl;
    rewrite ?decide_True by done; simpl; rewrite Hc; simpl; rewrite Hne; simpl;
    rewrite Hhead; done.
Qed.

Lemma task_with_foreign_category_refused_witness :
  let b := mkTaskBody (Some "Pay rent") None None None (Some "c1") in
  no_category_of "bob" "c1" sample_db
  ∧ status (asyncHandler (Tasks.createTask "t3" 30 "bob" b) sample_db).1 = 400%Z
  ∧ db (asyncHandler (Tasks.updateTask 30 "bob" "t2" b) sample_db).2 = sample_db.
Proof.
  intros b.
  assert (no_category_of "bob" "c1" sample_db) as Hno.
  { intros c Hc. vm_compute in Hc. by simplify_eq. }
  destruct (task_with_foreign_category_refused 30 "bob" "t3" "t2" "c1" b
              (mkTask "Pay rent" (Some "monthly") None COMPLETED "bob" None 20 20)
              sample_db eq_refl ltac:(discriminate) Hno eq_refl eq_refl)
    as (H1 & _ & _ & H4).
  split; [exact Hno|]. split; [by rewrite H1|exact H4].
Defined.

(** X10: a deletion of a task that the user owns answers 200 and removes
    that task and nothing else; afterwards a get and a second deletion of
    the same identifier answer 404. *)
Theorem delete_then_get_task (now : Z) (u id : string) (t : Task) (d : Db) :
  tasks d !! id = Some t →
  task_userId t = u →
  let r := run now u (DeleteTask id) d in
  r.1 = mkResponse 200 (Message true "Task deleted successfully")
  ∧ db r.2 = mkDb (delete id (tasks d)) (categories d)
  ∧ (run now u (GetTask id) (db r.2)).1
    = mkResponse 404 (Message false "Task not found")
  ∧ (run now u (DeleteTask id) (db r.2)).1
    = mkResponse 404 (Message false "Task not found").
Proof.
  intros Ht Hu r.
  assert (r = (mkResponse 200 (Message true "Task deleted successfully"),
               mkWorld (mkDb (delete id (tasks d)) (categories d))
                       [TaskFindFirst (Tasks.task_by_id id u); TaskDeleteCall id]))
    as ->.
  { subst r. run_handler. rewrite task_findFirst_by_id, Ht. simpl.
    rewrite decide_True by done. simpl. by rewrite Ht. }
  simpl. repeat split; run_handler; rewrite task_findFirst_by_id; simpl;
    by rewrite lookup_delete_eq.
Qed.

Lemma delete_then_get_task_witness :
  tasks sample_db !! "t1"
  = Some (mkTask "Buy milk" None (Some 50%Z) PENDING "alice" (Some "c1") 10 10)
  ∧ status (run 0 "alice" (DeleteTask "t1") sample_db).1 = 200%Z
  ∧ status (run 0 "alice" (GetTask "t1")
              (db (run 0 "alice" (DeleteTask "t1") sample_db).2)).1 = 404%Z.
Proof.
  destruct (delete_then_get_task 0 "alice" "t1" _ sample_db eq_refl eq_refl)
    as (H1 & _ & H3 & _).
  split; [reflexivity|]. rewrite H1, H3. exact (conj eq_refl eq_refl).
Defined.

(** What the update schema lets through. *)
Lemma updateTaskSchema_accepts (b : TaskBody) :
  Validation.updateTaskSchema b = None →
  (∀ t, b_title b = Some t → t ≠ "")
  ∧ (∀ s, b_status b = Some s → s ≠ "" ∧ is_Some (parse_status s))
  ∧ (∀ i, b_dueDate b = Some i → ∃ z, i = DateIso z)
  ∧ b_categoryId b ≠ Some "".
Proof.
  intros H. split; [|split; [|split]].
  - intros t Ht. unfold Validation.updateTaskSchema, Validation.first_error in H.
    rewrite Ht in H. simpl in H. intros ->. done.
  - intros s Hs. unfold Validation.updateTaskSchema, Validation.first_error in H.
    rewrite Hs in H. simpl in H. repeat case_match; try done.
    unfold is_enum in *. split; [by intros ->|]. by eapply bool_decide_eq_true_1.
  - intros i Hi. unfold Validation.updateTaskSchema, Validation.first_error in H.
    rewrite Hi in H. simpl in H. destruct i; repeat case_match; try done. by eexists.
  - by apply updateTaskSchema_categoryId.
Qed.

Lemma updateTask_ok (now : Z) (u id : string) (b : TaskBody) (t : Task) (d : Db) :
  Validation.updateTaskSchema b = None →
  tasks d !! id = Some t →
  task_userId t = u →
  (∀ c, b_categoryId b = Some c →
     ∃ cr, categories d !! c = Some cr ∧ category_userId cr = u) →
  let d' := add_task id (updated_task now b t) d in
  (run now u (UpdateTask id b) d).1
  = mkResponse 200 (TaskData (Some "Task updated successfully")
                             (task_view d' (id, updated_task now b t)))
  ∧ db (run now u (UpdateTask id b) d).2 = d'.
Proof.
  intros Hv Ht Hu Hcat d'. subst d'.
  destruct (updateTaskSchema_accepts b Hv) as (Htitle & Hst & Hdue & Hc).
  run_handler. rewrite Hv. simpl. rewrite task_findFirst_by_id, Ht. simpl.
  rewrite decide_True by done. simpl.
  assert (when_truthy (b_title b) = b_title b) as Etitle.
  { unfold when_truthy. destruct (b_title b) as [s|] eqn:E; simpl; [|done].
    specialize (Htitle s eq_refl). by destruct (String.eqb_spec s ""). }
  assert (match when_truthy (b_status b) with
          | Some s => Some <$> parse_status s
          | None => Some None
          end = Some (b_status b ≫= parse_status)) as Est.
  { unfold when_truthy. destruct (b_status b) as [s|] eqn:E; simpl; [|done].
    destruct (Hst s eq_refl) as [Hs' [st Hp]].
    destruct (String.eqb_spec s ""); [done|]. simpl. by rewrite Hp. }
  assert (match (λ i, if date_truthy i then Some (new_Date i) else None) <$> b_dueDate b
          with
          | Some o => Some <$> date_ok o
          | None => Some None
          end = Some ((λ i, due_of (Some i)) <$> b_dueDate b)) as Edue.
  { destruct (b_dueDate b) as [i|] eqn:E; simpl; [|done].
    destruct (Hdue i eq_refl) as [z ->]. done. }
  assert (updated_task now b t
          = patch_task now
              (mkTaskUpdate (b_title b) (b_description b)
                 ((λ i, if date_truthy i then Some (new_Date i) else None)
                    <$> b_dueDate b)
                 (when_truthy (b_status b)) (b_categoryId b))
              (b_status b ≫= parse_status)
              ((λ i, due_of (Some i)) <$> b_dueDate b) t) as Erow.
  { assert (when_truthy (b_status b) = b_status b) as Estatus.
    { unfold when_truthy. destruct (b_status b) as [s|] eqn:E; simpl; [|done].
      destruct (Hst s eq_refl) as [Hs' _]. by destruct (String.eqb_spec s ""). }
    unfold updated_task, patch_task, no_task_data, empty_body; simpl.
    rewrite Estatus.
    destruct (b_title b), (b_description b), (b_dueDate b), (b_status b),
      (b_categoryId b); simpl; try done.
    by destruct t. }
  rewrite Etitle, Est, Edue. simpl.
  destruct (b_categoryId b) as [c|] eqn:Hcid; simpl.
  - destruct (String.eqb_spec c "") as [->|Hcne]; [done|]. simpl.
    destruct (Hcat c eq_refl) as (cr & Hcr & Hown).
    rewrite owned_category_findFirst, Hcr. simpl.
    rewrite decide_True by done. simpl. rewrite Ht. simpl. rewrite Hcr. simpl.
    rewrite Erow. done.
  - rewrite Ht. simpl. rewrite Erow. done.
Qed.



(** X12: an update never clears a due date or a category: whatever the
    request and its answer, a task that had a due date still has one
    afterwards, and a task that had a category still has one. *)
Theorem update_never_clears (now : Z) (u id : string) (b : TaskBody) (t : Task) (d : Db) :
  tasks d !! id = Some t →
  ∃ t', tasks (db (run now u (UpdateTask id b) d).2) !! id = Some t'
        ∧ (is_Some (task_dueDate t) → is_Some (task_dueDate t'))
        ∧ (is_Some (task_categoryId t) → is_Some (task_categoryId t')).
Proof.
  intros Ht.
  destruct (Validation.updateTaskSchema b) as [key|] eqn:Hv.
  { run_handler. rewrite Hv. simpl. by exists t. }
  destruct (decide (task_userId t = u)) as [Hu|Hu].
  2:{ run_handler. rewrite Hv. simpl. rewrite task_findFirst_by_id, Ht. simpl.
      rewrite decide_False by done. simpl. by exists t. }
  assert ((∀ c, b_categoryId b = Some c →
             ∃ cr, categories d !! c = Some cr ∧ category_userId cr = u)
          ∨ db (run now u (UpdateTask id b) d).2 = d) as [Hcat|Hsame].
  { destruct (b_categoryId b) as [c|] eqn:Hc; [|by left].
    destruct (categories d !! c) as [cr|] eqn:Hcr.
    - destruct (decide (category_userId cr = u)) as [Hcu|Hcu].
      + left. intros ? [= <-]. by exists cr.
      + right. run_handler. rewrite Hv. simpl.
        rewrite task_findFirst_by_id, Ht. simpl. rewrite decide_True by done. simpl.
        rewrite Hc. simpl. destruct (String.eqb_spec c ""); simpl.
        * by apply updateTaskSchema_categoryId in Hv; subst.
        * rewrite owned_category_findFirst, Hcr. simpl.
          by rewrite decide_False.
    - right. run_handler. rewrite Hv. simpl.
      rewrite task_findFirst_by_id, Ht. simpl. rewrite decide_True by done. simpl.
      rewrite Hc. simpl. destruct (String.eqb_spec c ""); simpl.
      * by apply updateTaskSchema_categoryId in Hv; subst.
      * by rewrite owned_category_findFirst, Hcr. }
  2:{ rewrite Hsame. by exists t. }
  destruct (updateTask_ok now u id b t d Hv Ht Hu Hcat) as [_ ->].
  exists (updated_task now b t). unfold add_task; simpl.
  split; [apply lookup_insert_eq|].
  destruct (updateTaskSchema_accepts b Hv) as (_ & _ & Hdue & _).
  unfold updated_task; simpl. split.
  - destruct (b_dueDate b) as [i|] eqn:Hi; simpl; [|done].
    destruct (Hdue i eq_refl) as [z ->]. by eexists.
  - destruct (b_categoryId b); simpl; [by eexists|done].
Qed.

Lemma update_never_clears_witness :
  ∃ t', tasks (db (run 40 "alice"
                     (UpdateTask "t1" (mkTaskBody None None (Some DateEmpty) None None))
                     sample_db).2) !! "t1" = Some t'
        ∧ is_Some (task_dueDate t').
Proof.
  destruct (update_never_clears 40 "alice" "t1"
              (mkTaskBody None None (Some DateEmpty) None None)
              (mkTask "Buy milk" None (Some 50%Z) PENDING "alice" (Some "c1") 10 10)
              sample_db eq_refl) as (t' & Ht' & Hdue & _).
  exists t'. split; [exact Ht'|]. apply Hdue. by eexists.
Defined.

(** ** Pages *)





(** ** What a list selects *)




Lemma status_query_200 (now : Z) (u s : string) (d : Db) :
  is_enum s = true →
  page_total (run now u (GetTasks (status_query (Some s))) d).1
  = Some (length (task_rows (Tasks.with_status u s) d))
  ∧ page_total (run now u (GetTasks (status_query None)) d).1
    = Some (length (task_rows (mkTaskWhere None (Some u) None None None None) d)).
Proof.
  intros Hs.
  assert (s ≠ "") as Hne by (intros ->; done).
  apply String.eqb_neq in Hne.
  split.
  - rewrite (getTasks_page now u (status_query (Some s)) d 1 10
               (λ r, KInt (task_createdAt r.2)) (λ a b, key_le b a)); try done.
    + unfold page_total; simpl. unfold Tasks.tasks_where, Tasks.with_status, when_truthy.
      simpl. by rewrite Hne.
    + unfold Tasks.tasks_where, task_where_ok, when_truthy. simpl. by rewrite Hne.
  - by rewrite (getTasks_page now u (status_query None) d 1 10
                  (λ r, KInt (task_createdAt r.2)) (λ a b, key_le b a)).
Qed.

(** X16: the statistics agree with the lists: the total number of tasks is
    the total of the list request without a filter, and the three counts by
    status are the totals of the list requests filtered by that status. *)
Theorem stats_agree_with_lists (now now' : Z) (u : string) (d : Db) :
  ∃ total pending inProgress completed overdueCount,
    (run now u GetTaskStats d).1
    = mkResponse 200 (TaskStats total pending inProgress completed overdueCount)
    ∧ page_total (run now' u (GetTasks (status_query None)) d).1 = Some total
    ∧ page_total (run now' u (GetTasks (status_query (Some "PENDING"))) d).1
      = Some pending
    ∧ page_total (run now' u (GetTasks (status_query (Some "IN_PROGRESS"))) d).1
      = Some inProgress
    ∧ page_total (run now' u (GetTasks (status_query (Some "COMPLETED"))) d).1
      = Some completed.
Proof.
  eexists _, _, _, _, _. split; [run_handler; reflexivity|].
  split; [apply (status_query_200 now' u "PENDING" d eq_refl)|].
  repeat split; by apply status_query_200.
Qed.

Lemma overdue_le_open (now : Z) (u : string) (l : list (string * Task)) :
  (length (List.filter
             (task_matches
                (mkTaskWhere None (Some u) (Some (NotIn ["COMPLETED"; "CANCELLED"]))
                             None (Some now) None)) l)
   ≤ length (List.filter (task_matches (Tasks.with_status u "PENDING")) l)
     + length (List.filter (task_matches (Tasks.with_status u "IN_PROGRESS")) l))%nat.
Proof.
  induction l as [|[i t] l IH]; [done|].
  unfold task_matches, Tasks.with_status in *; simpl in *.
  destruct (String.eqb (task_userId t) u), (task_status t), (task_dueDate t) as [x|];
    simpl; try destruct (x <? now)%Z; simpl; lia.
Qed.

(** X17: in the statistics the overdue count never exceeds the pending and
    in-progress counts together, since an overdue task is neither completed
    nor cancelled. *)
Theorem overdue_within_open (now : Z) (u : string) (d : Db) :
  ∃ total pending inProgress completed overdueCount,
    (run now u GetTaskStats d).1
    = mkResponse 200 (TaskStats total pending inProgress completed overdueCount)
    ∧ (overdueCount ≤ pending + inProgress)%nat.
Proof.
  run_handler. eexists _, _, _, _, _. split; [reflexivity|].
  apply overdue_le_open.
Qed.

(** ** Categories and their tasks *)

Lemma tasks_of_count (d : Db) (id : string) :
  length (tasks_of d id) = size (filter (refers_to id) (tasks d)).
Proof.
  unfold tasks_of. apply count_rows. intros r. apply bool_decide_eq_true.
Qed.

(** X18: the list of categories answers with exactly the categories that
    the user owns, each once, the most recently created first, and with
    each of them the number of tasks that refer to it. *)
Theorem categories_listed (now : Z) (u : string) (d : Db) :
  ∃ views,
    (run now u GetCategories d).1 = mkResponse 200 (CategoryList views)
    ∧ (λ v, (cv_id v, cv_category v)) <$> views
      ≡ₚ map_to_list (filter (λ r, category_userId r.2 = u) (categories d))
    ∧ Sorted (λ a b, (category_createdAt b.2 ≤ category_createdAt a.2)%Z)
             ((λ v, (cv_id v, cv_category v)) <$> views)
    ∧ ∀ v, v ∈ views →
        cv_count_tasks v = size (filter (refers_to (cv_id v)) (tasks d)).
Proof.
  run_handler. eexists. split; [reflexivity|].
  rewrite category_rows_in_views. split; [|split].
  - rewrite sort_by_perm. unfold category_rows. apply rows_of_table.
    intros [i c]. unfold category_matches; simpl.
    by rewrite andb_true_r, String.eqb_eq.
  - eapply Sorted_weaken; [|apply sort_by_sorted].
    + intros a b. simpl. apply Z.leb_le.
    + intros a b. simpl. rewrite !Z.leb_le. lia.
  - intros v (r & -> & _)%list_elem_of_fmap. simpl. apply tasks_of_count.
Qed.

Lemma in_category_rows (d : Db) (id : string) :
  task_rows (in_category id) d = tasks_of d id.
Proof.
  unfold task_rows, tasks_of. apply filter_ext. intros [i t].
  unfold task_matches, in_category; simpl. by rewrite !andb_true_r.
Qed.

(** X19: for a category that the user owns, the get returns the number of
    tasks that refer to it together with that many tasks, and the deletion
    succeeds exactly when that number is zero; otherwise the refusal names
    the same number. *)
Theorem delete_agrees_with_count (now : Z) (u id : string) (c : Category) (d : Db) :
  categories d !! id = Some c →
  category_userId c = u →
  ∃ n ts,
    (run now u (GetCategory id) d).1
    = mkResponse 200 (CategoryData None (mkCategoryView id c n (Some ts)))
    ∧ length ts = n
    ∧ n = size (filter (refers_to id) (tasks d))
    ∧ (n = 0%nat →
       (run now u (DeleteCategory id) d).1
       = mkResponse 200 (Message true "Category deleted successfully"))
    ∧ (n ≠ 0%nat →
       (run now u (DeleteCategory id) d).1
       = mkResponse 400
           (Message false
              ("Cannot delete category. It has " +:+ pretty n +:+
               " associated tasks. Please move or delete the tasks first."))).
Proof.
  intros Hc Hu. exists (length (tasks_of d id)). eexists.
  split; [|split; [|split; [|split]]].
  - run_handler. rewrite category_findFirst_by_id, Hc. simpl.
    rewrite decide_True by done. reflexivity.
  - rewrite length_fmap. apply Permutation_length, sort_by_perm.
  - apply tasks_of_count.
  - intros Hn. run_handler. rewrite category_findFirst_by_id, Hc. simpl.
    rewrite decide_True by done. simpl. fold (in_category id).
    rewrite in_category_rows, Hn. simpl. by rewrite Hc.
  - intros Hn. run_handler. rewrite category_findFirst_by_id, Hc. simpl.
    rewrite decide_True by done. simpl. fold (in_category id).
    rewrite in_category_rows. destruct (length (tasks_of d id)); done.
Qed.

Lemma delete_agrees_with_count_witness :
  ∃ ts,
    (run 0 "alice" (GetCategory "c1") sample_db).1
    = mkResponse 200
        (CategoryData None
           (mkCategoryView "c1" (mkCategory "Work" "#3B82F6" "alice" 5 5) 1 (Some ts)))
    ∧ status (run 0 "alice" (DeleteCategory "c1") sample_db).1 = 400%Z.
Proof.
  destruct (delete_agrees_with_count 0 "alice" "c1" _ sample_db eq_refl eq_refl)
    as (n & ts & Hget & Hlen & _ & _ & Hdel).
  assert (n = 1%nat) as ->.
  { assert (cv_count_tasks <$> (match body (run 0 "alice" (GetCategory "c1") sample_db).1
                                with CategoryData _ v => Some v | _ => None end)
            = Some 1%nat) as H1 by reflexivity.
    rewrite Hget in H1. simpl in H1. congruence. }
  exists ts. split; [exact Hget|]. rewrite Hdel by done. reflexivity.
Defined.

Lemma toLowerCase_empty (s s' : string) :
  JS.toLowerCase s = JS.toLowerCase s' → String.eqb s "" = String.eqb s' "".
Proof. destruct s, s'; simpl; intros H; by simplify_eq. Qed.

Lemma toLowerCase_app (a b : string) :
  JS.toLowerCase (a +:+ b) = JS.toLowerCase a +:+ JS.toLowerCase b.
Proof. induction a as [|c a IH]; simpl; [done|]. by rewrite IH. Qed.

Lemma search_rows_ignore_case (u s s' : string) (q : TaskQuery) (d : Db) :
  JS.toLowerCase s = JS.toLowerCase s' →
  task_rows (Tasks.tasks_where u (with_search s q)) d
  = task_rows (Tasks.tasks_where u (with_search s' q)) d.
Proof.
  intros H. unfold task_rows. apply filter_ext. intros [i t].
  unfold task_matches, Tasks.tasks_where, when_truthy; simpl.
  rewrite (toLowerCase_empty s s' H).
  destruct (negb (s' =? "")); simpl; [|done].
  unfold contains_insensitive. simpl. by rewrite !toLowerCase_app, H.
Qed.

(** X20: the search of a list request ignores the case of the letters of
    the search text: two texts that differ in case only get the same
    answer. *)
Theorem search_ignores_case (now : Z) (u s s' : string) (q : TaskQuery) (d : Db) :
  JS.toLowerCase s = JS.toLowerCase s' →
  (run now u (GetTasks (with_search s q)) d).1
  = (run now u (GetTasks (with_search s' q)) d).1.
Proof.
  intros H.
  pose proof (search_rows_ignore_case u s s' q d H) as Hrows.
  assert (task_where_ok (Tasks.tasks_where u (with_search s q))
          = task_where_ok (Tasks.tasks_where u (with_search s' q))) as Hok by done.
  unfold run, route, Tasks.getTasks.
  set (w := Tasks.tasks_where u (with_search s q)) in *.
  set (w' := Tasks.tasks_where u (with_search s' q)) in *.
  clearbody w w'. run_handler. rewrite Hrows, Hok.
  destruct (task_where_ok w'); simpl; [|reflexivity].
  destruct (task_order _) as [order|]; simpl; [|reflexivity].
  destruct (JS.mul _ _) as [sk| |]; simpl; try reflexivity.
  destruct (JS.parseInt (default "10" (q_limit q))) as [l| |]; simpl; try reflexivity.
  rewrite ?Hrows. destruct (_ && _)%bool; simpl; rewrite ?Hrows; reflexivity.
Qed.

Lemma search_ignores_case_witness :
  JS.toLowerCase "Milk" = JS.toLowerCase "mILK"
  ∧ (run 0 "alice" (GetTasks (with_search "Milk" (status_query None))) sample_db).1
    = (run 0 "alice" (GetTasks (with_search "mILK" (status_query None))) sample_db).1.
Proof.
  assert (JS.toLowerCase "Milk" = JS.toLowerCase "mILK") as H by reflexivity.
  exact (conj H (search_ignores_case 0 "alice" "Milk" "mILK" (status_query None)
                   sample_db H)).
Defined.



(** ** routes/auth.ts *)

Lemma findUnique_email_None (email : string) (users : gmap string Auth.User) :
  Auth.findUnique_email email users = None ↔ email_free email users.
Proof.
  unfold Auth.findUnique_email, email_free. rewrite head_filter_None. split.
  - intros H i a Hi Heq. apply elem_of_map_to_list in Hi.
    specialize (H _ Hi). simpl in H. apply String.eqb_neq in H. done.
  - intros H [i a] Hi. apply elem_of_map_to_list in Hi. simpl.
    apply String.eqb_neq. eauto.
Qed.

Lemma findUnique_email_Some (email i : string) (a : Auth.User)
    (users : gmap string Auth.User) :
  Auth.findUnique_email email users = Some (i, a) →
  users !! i = Some a ∧ Auth.user_email a = email.
Proof.
  intros H. apply head_filter_Some in H as [Hin Heq].
  apply elem_of_map_to_list in Hin. simpl in Heq.
  apply String.eqb_eq in Heq. done.
Qed.

Lemma tokens_issued (ms : string → option Z) (env : gmap string string) (clock : Z)
    (u : string) :
  jwt_configured ms env →
  ∃ token refresh,
    Jwt.generateAccessToken ms env clock u = Jwt.Ok token
    ∧ Jwt.generateRefreshToken ms env clock u = Jwt.Ok refresh.
Proof.
  intros (Ha & Hr & [sa Hsa] & [sr Hsr]).
  unfold Jwt.generateAccessToken, Jwt.generateRefreshToken, Jwt.sign.
  rewrite Ha, Hr, Hsa, Hsr. simpl. eauto.
Qed.

(** X22: registration and login round trip.  When bcrypt accepts a password
    against every hash made of it, both secrets and time spans are
    configured, no user has the email and the identifier drawn is fresh,
    the registration answers 201 with the new user and stores a row whose
    password column is the hash; a login with the same email and password
    then answers 200 for the same user with the tokens issued for its
    identifier, and the profile request of that user returns the row
    without the password. *)
Theorem register_then_login (ms : string → option Z) (hash : string → string → string)
    (compare : string → string → bool) (cuid salt : string) (now clock clock' : Z)
    (env : gmap string string) (b : Auth.RegisterBody) (users : gmap string Auth.User) :
  (∀ p s, compare p (hash p s) = true) →
  jwt_configured ms env →
  email_free (Auth.rb_email b) users →
  users !! cuid = None →
  let users' := <[cuid := registered hash salt now b]> users in
  let user := Auth.mkPublicUser cuid (Auth.rb_name b) (Auth.rb_email b) now in
  (∃ token refresh,
     Auth.register ms hash cuid salt now clock env b users
     = (inl (Auth.mkAuthResponse 201 (Auth.Registered user token refresh)), users'))
  ∧ (∃ token refresh,
       Auth.login ms compare clock' env
         (Auth.mkLoginBody (Auth.rb_email b) (Auth.rb_password b)) users'
       = (inl (Auth.mkAuthResponse 200 (Auth.LoggedIn user token refresh)), users')
       ∧ Jwt.generateAccessToken ms env clock' cuid = Jwt.Ok token
       ∧ Jwt.generateRefreshToken ms env clock' cuid = Jwt.Ok refresh)
  ∧ Auth.getMe cuid users'
    = (inl (Auth.mkAuthResponse 200
              (Auth.Me (Some (Auth.mkProfile cuid (Auth.rb_name b) (Auth.rb_email b)
                                             now now)))), users').
Proof.
  intros Hbcrypt Hcfg Hfree Hfresh users' user.
  destruct (tokens_issued ms env clock cuid Hcfg) as (t & r & Ht & Hr).
  destruct (tokens_issued ms env clock' cuid Hcfg) as (t' & r' & Ht' & Hr').
  split; [|split].
  - exists t, r. unfold Auth.register.
    rewrite (proj2 (findUnique_email_None _ _) Hfree), Hfresh.
    rewrite bool_decide_eq_false_2 by (by intros [? ?]).
    by rewrite Ht, Hr.
  - exists t', r'. split; [|done]. unfold Auth.login. simpl.
    destruct (Auth.findUnique_email (Auth.rb_email b) users') as [[i a]|] eqn:Hfind.
    + apply findUnique_email_Some in Hfind as [Hi Hmail].
      subst users'. apply lookup_insert_Some in Hi as [[<- <-]|[Hne Hi]].
      * unfold registered; simpl. rewrite Hbcrypt. simpl. by rewrite Ht', Hr'.
      * by destruct (Hfree i a Hi).
    + apply findUnique_email_None in Hfind.
      destruct (Hfind cuid (registered hash salt now b)); [|done].
      subst users'. by rewrite lookup_insert_eq.
  - unfold Auth.getMe. subst users'. by rewrite lookup_insert_eq.
Qed.

Lemma register_then_login_witness :
  let env : gmap string string :=
    {[ "JWT_SECRET" := "access-key"; "JWT_REFRESH_SECRET" := "refresh-key" ]} in
  let b := Auth.mkRegisterBody "Ada" "ada@example.com" "correct horse" in
  ∃ token refresh,
    (Auth.login Jwt.ms_units String.eqb 1700000100 env
       (Auth.mkLoginBody "ada@example.com" "correct horse")
       (<[ "u1" := registered (λ p _, p) "salt" 1700000000000 b ]> ∅)).1
    = inl (Auth.mkAuthResponse 200
             (Auth.LoggedIn (Auth.mkPublicUser "u1" "Ada" "ada@example.com" 1700000000000)
                            token refresh)).
Proof.
  intros env b.
  destruct (register_then_login Jwt.ms_units (λ p _, p) String.eqb "u1" "salt"
              1700000000000 1700000000 1700000100 env b ∅) as (_ & (t & r & H & _) & _).
  - intros p s. apply String.eqb_refl.
  - repeat split; try reflexivity; eexists; vm_compute; reflexivity.
  - intros i a Hi. by rewrite lookup_empty in Hi.
  - apply lookup_empty.
  - exists t, r. simpl in H. by rewrite H.
Defined.

(** X23: a registration never makes two users share an email, and it is
    refused with 400, the users left as they are, whenever some user has the
    email already. *)
Theorem register_keeps_emails_unique (ms : string → option Z)
    (hash : string → string → string) (cuid salt : string) (now clock : Z)
    (env : gmap string string) (b : Auth.RegisterBody) (users : gmap string Auth.User) :
  emails_unique users →
  emails_unique (Auth.register ms hash cuid salt now clock env b users).2
  ∧ (¬ email_free (Auth.rb_email b) users →
     Auth.register ms hash cuid salt now clock env b users = (inl user_exists, users)).
Proof.
  intros Huniq. unfold Auth.register.
  destruct (Auth.findUnique_email (Auth.rb_email b) users) as [[i a]|] eqn:Hfind.
  { split; [done|]. by intros _. }
  apply findUnique_email_None in Hfind. split; [|done].
  case_bool_decide as Hid; [done|].
  assert (emails_unique
            (<[cuid := Auth.mkUser (Auth.rb_email b) (Auth.rb_name b)
                         (hash (Auth.rb_password b) salt) now now]> users)) as Hnew.
  { intros i j a a' Hi Hj Heq.
    apply lookup_insert_Some in Hi as [[<- <-]|[Hni Hi]];
      apply lookup_insert_Some in Hj as [[<- <-]|[Hnj Hj]]; simpl in *.
    - done.
    - by destruct (Hfind j a' Hj).
    - by destruct (Hfind i a Hi).
    - eauto. }
  destruct (Jwt.generateAccessToken _ _ _ _); [|done].
  by destruct (Jwt.generateRefreshToken _ _ _ _).
Qed.

Lemma register_keeps_emails_unique_witness :
  let b := Auth.mkRegisterBody "Ada" "ada@example.com" "correct horse" in
  let users : gmap string Auth.User :=
    {[ "u1" := registered (λ p _, p) "salt" 1700000000000 b ]} in
  Auth.register Jwt.ms_units (λ p _, p) "u2" "pepper" 1700000500000 1700000500 ∅
    (Auth.mkRegisterBody "Another Ada" "ada@example.com" "battery staple") users
  = (inl user_exists, users).
Proof.
  intros b users.
  refine (proj2 (register_keeps_emails_unique Jwt.ms_units (λ p _, p) "u2" "pepper"
                   1700000500000 1700000500 ∅
                   (Auth.mkRegisterBody "Another Ada" "ada@example.com" "battery staple")
                   users _) _).
  - intros i j a a' Hi Hj _.
    subst users. apply lookup_singleton_Some in Hi as [<- _].
    by apply lookup_singleton_Some in Hj as [<- _].
  - intros Hfree. apply (Hfree "u1" (registered (λ p _, p) "salt" 1700000000000 b));
      reflexivity.
Defined.

(** X24: a login that fails does not tell why: when no user has the email,
    and when the password does not match the stored hash of the user who
    has it, the answer is the same 401 and the same message.  And a login
    is answered 200 only for a user of that email against whose hash the
    password compares well. *)
Theorem login_failures_alike (ms : string → option Z) (compare : string → string → bool)
    (clock : Z) (env : gmap string string) (b : Auth.LoginBody)
    (users : gmap string Auth.User) :
  (email_free (Auth.lb_email b) users
   ∨ (∀ i a, users !! i = Some a → Auth.user_email a = Auth.lb_email b →
             compare (Auth.lb_password b) (Auth.user_password a) = false) →
   Auth.login ms compare clock env b users = (inl Auth.invalid_credentials, users))
  ∧ (∀ r, (Auth.login ms compare clock env b users).1 = inl r → Auth.auth_status r = 200%Z →
       ∃ i a token refresh,
         users !! i = Some a ∧ Auth.user_email a = Auth.lb_email b
         ∧ compare (Auth.lb_password b) (Auth.user_password a) = true
         ∧ Auth.auth_body r = Auth.LoggedIn (Auth.public i a) token refresh).
Proof.
  unfold Auth.login.
  destruct (Auth.findUnique_email (Auth.lb_email b) users) as [[i a]|] eqn:Hfind.
  - apply findUnique_email_Some in Hfind as [Hi Hmail].
    destruct (compare (Auth.lb_password b) (Auth.user_password a)) eqn:Hcmp; simpl.
    + split.
      * intros [Hfree|Hwrong]; [by destruct (Hfree i a Hi)|].
        rewrite (Hwrong i a Hi Hmail) in Hcmp. done.
      * intros r.
        destruct (Jwt.generateAccessToken _ _ _ _); [|done].
        destruct (Jwt.generateRefreshToken _ _ _ _); [|done].
        simpl. intros [= <-] _. eauto 10.
    + split; [done|]. intros r [= <-]. done.
  - split; [done|]. intros r [= <-]. done.
Qed.

Lemma login_failures_alike_witness :
  let b := Auth.mkRegisterBody "Ada" "ada@example.com" "correct horse" in
  let users : gmap string Auth.User :=
    {[ "u1" := registered (λ p _, p) "salt" 1700000000000 b ]} in
  Auth.login Jwt.ms_units String.eqb 1700000100 ∅
    (Auth.mkLoginBody "ada@example.com" "wrong horse") users
  = Auth.login Jwt.ms_units String.eqb 1700000100 ∅
      (Auth.mkLoginBody "bob@example.com" "wrong horse") users.
Proof.
  intros b users.
  pose proof (proj1 (login_failures_alike Jwt.ms_units String.eqb 1700000100 ∅
                       (Auth.mkLoginBody "ada@example.com" "wrong horse") users)) as Hada.
  pose proof (proj1 (login_failures_alike Jwt.ms_units String.eqb 1700000100 ∅
                       (Auth.mkLoginBody "bob@example.com" "wrong horse") users)) as Hbob.
  etransitivity; [apply Hada|symmetry; apply Hbob].
  - right. intros i a Hi _. subst users. apply lookup_singleton_Some in Hi as [_ <-].
    reflexivity.
  - left. intros i a Hi. subst users. apply lookup_singleton_Some in Hi as [_ <-].
    discriminate.
Defined.

(** X25: a registration made while the access secret is not set fails only
    after the user is stored: the request ends in the error of the token
    generator, the row is in the table, and the same registration sent
    again is refused with 400 because the email is now taken. *)
Theorem register_without_secret_stores_user (ms : string → option Z)
    (hash : string → string → string) (cuid cuid' salt salt' : string)
    (now now' clock clock' : Z) (env env' : gmap string string) (b : Auth.RegisterBody)
    (users : gmap string Auth.User) :
  JS.truthy (env !! "JWT_SECRET") = false →
  email_free (Auth.rb_email b) users →
  users !! cuid = None →
  let users' := <[cuid := registered hash salt now b]> users in
  Auth.register ms hash cuid salt now clock env b users
  = (inr (Auth.JsError "JWT_SECRET environment variable is not set"), users')
  ∧ Auth.register ms hash cuid' salt' now' clock' env' b users'
    = (inl user_exists, users').
Proof.
  intros Hsecret Hfree Hfresh users'. split.
  - unfold Auth.register, Jwt.generateAccessToken.
    rewrite (proj2 (findUnique_email_None _ _) Hfree), Hfresh, Hsecret.
    by rewrite bool_decide_eq_false_2 by (by intros [? ?]).
  - unfold Auth.register.
    destruct (Auth.findUnique_email (Auth.rb_email b) users') as [[i a]|] eqn:Hfind; [done|].
    apply findUnique_email_None in Hfind.
    destruct (Hfind cuid (registered hash salt now b)); [|done].
    subst users'. by rewrite lookup_insert_eq.
Qed.

Lemma register_without_secret_stores_user_witness :
  let b := Auth.mkRegisterBody "Ada" "ada@example.com" "correct horse" in
  (Auth.register Jwt.ms_units (λ p _, p) "u1" "salt" 1700000000000 1700000000 ∅ b ∅).2
  !! "u1" = Some (registered (λ p _, p) "salt" 1700000000000 b).
Proof.
  intros b.
  destruct (register_without_secret_stores_user Jwt.ms_units (λ p _, p) "u1" "u2" "salt"
              "salt" 1700000000000 1700000000000 1700000000 1700000000 ∅ ∅ b ∅) as [H _].
  - reflexivity.
  - intros i a Hi. by rewrite lookup_empty in Hi.
  - apply lookup_empty.
  - rewrite H. simpl. apply lookup_insert_eq.
Defined.

(** X26: the refresh request never ends in an error and never changes the
    users: it answers 200 or 401, and when a token is sent while one of the
    two secrets is not set, the answer is the 401 of an invalid refresh
    token. *)
Theorem refresh_answers_200_or_401 (ms : string → option Z) (clock : Z)
    (env : gmap string string) (token : option Jwt.Token) (users : gmap string Auth.User) :
  (∃ r, Auth.refreshToken ms clock env token users = (inl r, users)
        ∧ (Auth.auth_status r = 200%Z ∨ Auth.auth_status r = 401%Z))
  ∧ (Auth.token_falsy token = false →
     JS.truthy (env !! "JWT_SECRET") = false
     ∨ JS.truthy (env !! "JWT_REFRESH_SECRET") = false →
     Auth.refreshToken ms clock env token users = (inl Auth.invalid_refresh_token, users)).
Proof.
  unfold Auth.refreshToken. split.
  - destruct (Auth.token_falsy token); [eauto|].
    destruct (Jwt.verifyRefreshToken _ _ _); [|eauto].
    destruct (users !! _); [|eauto].
    destruct (Jwt.generateAccessToken _ _ _ _); [|eauto].
    destruct (Jwt.generateRefreshToken _ _ _ _); eauto.
  - intros -> Hmissing.
    unfold Jwt.verifyRefreshToken, Jwt.generateAccessToken.
    destruct (JS.truthy (env !! "JWT_REFRESH_SECRET")) eqn:Hr; simpl; [|done].
    destruct Hmissing as [Ha|?]; [|done]. rewrite Ha. simpl.
    destruct (Jwt.verify _ _ _); [|done].
    by destruct (users !! _).
Qed.

Lemma refresh_answers_200_or_401_witness :
  let token :=
    Jwt.Signed (Jwt.mkJwtPayload "u1" (Some 1700000000%Z) (Some 1700604800%Z)
                  (Some "task-manager-api") None) "refresh-key" in
  Auth.refreshToken Jwt.ms_units 1700000100 {[ "JWT_REFRESH_SECRET" := "refresh-key" ]}
    (Some token) ∅
  = (inl Auth.invalid_refresh_token, ∅).
Proof.
  intros token.
  apply (proj2 (refresh_answers_200_or_401 Jwt.ms_units 1700000100
                  {[ "JWT_REFRESH_SECRET" := "refresh-key" ]} (Some token) ∅)).
  - reflexivity.
  - left. reflexivity.
Defined.

(** X27: a refresh token issued for a user is exchanged, while it has not
    expired, for the two tokens that are issued for that user at the time
    of the request when the user is still in the table, and refused with
    401 when the user is gone; the users are left as they are, so the same
    refresh token is exchanged again as long as it has not expired. *)
Theorem refresh_issued_token (ms : string → option Z) (clock clock' span : Z)
    (env : gmap string string) (u : string) (issued : Jwt.Token)
    (users : gmap string Auth.User) :
  jwt_configured ms env →
  ms (JS.or_else (env !! "JWT_REFRESH_EXPIRE") "7d") = Some span →
  Jwt.generateRefreshToken ms env clock u = Jwt.Ok issued →
  (clock' < clock + span / 1000)%Z →
  (is_Some (users !! u) →
     ∃ token refresh,
       Auth.refreshToken ms clock' env (Some issued) users
       = (inl (Auth.mkAuthResponse 200 (Auth.Refreshed token refresh)), users)
       ∧ Jwt.generateAccessToken ms env clock' u = Jwt.Ok token
       ∧ Jwt.generateRefreshToken ms env clock' u = Jwt.Ok refresh)
  ∧ (users !! u = None →
     Auth.refreshToken ms clock' env (Some issued) users
     = (inl Auth.invalid_refresh_token, users)).
Proof.
  intros Hcfg Hspan Hissued Hclock.
  destruct (tokens_issued ms env clock' u Hcfg) as (t & r & Ht & Hr).
  destruct Hcfg as (_ & Hsecret & _ & _).
  assert (Jwt.verifyRefreshToken env clock' issued
          = Jwt.Ok (Jwt.mkJwtPayload u (Some clock) (Some (clock + span / 1000)%Z)
                      (Some "task-manager-api") None)
          ∧ Auth.token_falsy (Some issued) = false) as [Hverify Htruthy].
  { revert Hissued.
    unfold Jwt.generateRefreshToken, Jwt.verifyRefreshToken, Jwt.sign, Jwt.verify.
    rewrite Hsecret, Hspan. simpl. intros [= <-]. simpl.
    rewrite String.eqb_refl. simpl.
    destruct (Z.leb_spec (clock + span / 1000) clock'); [lia|done]. }
  unfold Auth.refreshToken. rewrite Htruthy. simpl. rewrite Hverify. simpl. split.
  - intros [a Ha]. rewrite Ha, Ht, Hr. eauto.
  - by intros ->.
Qed.

Lemma refresh_issued_token_witness :
  let env : gmap string string :=
    {[ "JWT_SECRET" := "access-key"; "JWT_REFRESH_SECRET" := "refresh-key" ]} in
  let issued :=
    Jwt.Signed (Jwt.mkJwtPayload "u1" (Some 1700000000%Z) (Some 1700604800%Z)
                  (Some "task-manager-api") None) "refresh-key" in
  Auth.refreshToken Jwt.ms_units 1700000100 env (Some issued) ∅
  = (inl Auth.invalid_refresh_token, ∅).
Proof.
  intros env issued.
  refine (proj2 (refresh_issued_token Jwt.ms_units 1700000000 1700000100 604800000 env
                   "u1" issued ∅ _ eq_refl eq_refl _) _).
  - repeat split; try reflexivity; eexists; vm_compute; reflexivity.
  - reflexivity.
  - apply lookup_empty.
Defined.
